(** * A minimal HTTP/1.x server: request parser and connection handler

    Shallow embedding of [request.py] (the line reader [iter_lines], the
    [BodyReader] and [Request.from_socket]) and of the per-connection part of
    [server.py] ([serve_file] and [HTTPWorker.handle_client]).

    Conventions of the model.
    - A Python [str] is a [string]; the text on the wire is ASCII, where
      [bytes.decode('utf-8')] is the identity and [upper], [lower] and the
      white-space test only concern the characters below 128.
    - A socket is the list of the texts its successive
      [sock.recv(bufsize).decode('utf-8')] calls evaluate to; once that list
      is used up, or at an empty element, the peer has closed and every
      further call returns the empty text.
    - Exceptions are values of [exn]; a computation that may raise returns
      [exn + A].
    - Writes to standard output ([print]) are left out. *)

From Equations Require Import Equations.
From Stdlib Require Import String Ascii List ZArith Lia Bool.
Import ListNotations.
Open Scope string_scope.

(** ** Python string operations *)

Module Str.

Definition is_empty (s : string) : bool :=
  match s with EmptyString => true | String _ _ => false end.

(** [s[:n]] and [s[n:]] for a non-negative index. *)
Fixpoint take (n : nat) (s : string) : string :=
  match n, s with
  | S n', String c s' => String c (take n' s')
  | _, _ => EmptyString
  end.

Fixpoint drop (n : nat) (s : string) : string :=
  match n, s with
  | S n', String _ s' => drop n' s'
  | _, _ => s
  end.

(** A slice bound as Python resolves it: a negative bound counts from the
    end and is clamped at 0. *)
Definition bound (n : Z) (s : string) : nat :=
  if (0 <=? n)%Z then Z.to_nat n
  else Z.to_nat (Z.of_nat (String.length s) + n).

(** [s[:n]] and [s[n:]] for any integer. *)
Definition slice_to (n : Z) (s : string) : string := take (bound n s) s.
Definition slice_from (n : Z) (s : string) : string := drop (bound n s) s.

(** [s.startswith(p)]. *)
Definition startswith (s p : string) : bool := String.prefix p s.

(** The position of the first occurrence of [sub] in [s], if any. *)
Definition find (s sub : string) : option nat := String.index 0 sub s.

(** [sub in s]. *)
Definition contains (sub s : string) : bool :=
  match find s sub with Some _ => true | None => false end.

(** [s.split(sep)] for a one-character separator: every occurrence
    separates, so there is one more token than separators. *)
Fixpoint split (sep : ascii) (s : string) : list string :=
  match s with
  | EmptyString => [EmptyString]
  | String c s' =>
      if Ascii.eqb c sep then EmptyString :: split sep s'
      else match split sep s' with
           | tok :: toks => String c tok :: toks
           | [] => [String c EmptyString]
           end
  end.

(** [sep.join(parts)]. *)
Fixpoint join (sep : string) (parts : list string) : string :=
  match parts with
  | [] => EmptyString
  | [p] => p
  | p :: ps => p ++ sep ++ join sep ps
  end.

(** [s.partition(sep)] for a one-character separator. *)
Fixpoint partition (sep : ascii) (s : string) : string * string * string :=
  match s with
  | EmptyString => (EmptyString, EmptyString, EmptyString)
  | String c s' =>
      if Ascii.eqb c sep then (EmptyString, String sep EmptyString, s')
      else let '(before, found, after) := partition sep s' in
           (String c before, found, after)
  end.

(** [str.isspace] on one ASCII character: tab, line feed, vertical tab,
    form feed, carriage return, the four separators 28 to 31 and space. *)
Definition isspace (c : ascii) : bool :=
  let n := nat_of_ascii c in
  ((9 <=? n) && (n <=? 13) || (28 <=? n) && (n <=? 32))%nat.

(** [s.lstrip()] and [s.lstrip(chars)] for a one-character [chars]. *)
Fixpoint lstrip_by (p : ascii -> bool) (s : string) : string :=
  match s with
  | String c s' => if p c then lstrip_by p s' else s
  | EmptyString => EmptyString
  end.

Definition lstrip (s : string) : string := lstrip_by isspace s.
Definition lstrip_char (c : ascii) (s : string) : string :=
  lstrip_by (Ascii.eqb c) s.

Definition rev (s : string) : string :=
  string_of_list_ascii (List.rev (list_ascii_of_string s)).

(** [s.endswith(p)]. *)
Definition endswith (s p : string) : bool := startswith (rev s) (rev p).

Definition map (f : ascii -> ascii) : string -> string :=
  fix go s :=
    match s with
    | EmptyString => EmptyString
    | String c s' => String (f c) (go s')
    end.

Definition upper_char (c : ascii) : ascii :=
  let n := nat_of_ascii c in
  if ((97 <=? n) && (n <=? 122))%nat then ascii_of_nat (n - 32) else c.

Definition lower_char (c : ascii) : ascii :=
  let n := nat_of_ascii c in
  if ((65 <=? n) && (n <=? 90))%nat then ascii_of_nat (n + 32) else c.

(** [s.upper()] and [s.lower()]. *)
Definition upper : string -> string := map upper_char.
Definition lower : string -> string := map lower_char.

End Str.

(** The line terminator, carriage return then line feed. *)
Definition CRLF : string := String "013" (String "010" EmptyString).

(** ** Exceptions *)

(** What a [ValueError] of this program says.  The two malformed-line
    messages are built from [repr] of the offending line, which the model
    keeps as the line itself. *)
Inductive message : Type :=
| SubstringNotFound                        (* raised by [str.index] *)
| UnpackMismatch                           (* tuple unpacking, wrong length *)
| InvalidLiteral (s : string)              (* raised by [int] *)
| RequestLineMissing                       (* "Request line missing" *)
| MalformedRequestLine (line : string)     (* "Malformed request line '...'." *)
| MalformedHeaderLine (line : string).     (* "Malformed header line '...'" *)

Inductive exn : Type :=
| ValueError (m : message)
| IndexError
| FileNotFoundError
| OSError.

Definition result (A : Type) : Type := exn + A.

(** [try: body except ValueError: handler]. *)
Definition except_ValueError {A} (body : result A) (handler : result A) : result A :=
  match body with
  | inl (ValueError _) => handler
  | other => other
  end.

(** [s.index(sub)]: the position of the first occurrence, or a
    [ValueError]. *)
Definition str_index (s sub : string) : result nat :=
  match Str.find s sub with
  | Some i => inr i
  | None => inl (ValueError SubstringNotFound)
  end.

(** ** Sockets *)

Definition socket : Type := list string.

(** [sock.recv(bufsize).decode('utf-8')]: the next text and the socket
    afterwards. *)
Definition recv (sock : socket) : string * socket :=
  match sock with
  | [] => (EmptyString, [])
  | data :: rest => if Str.is_empty data then (EmptyString, sock) else (data, rest)
  end.

(** Everything the peer sends before it closes. *)
Fixpoint pending (sock : socket) : string :=
  match sock with
  | [] => EmptyString
  | data :: rest => if Str.is_empty data then EmptyString else data ++ pending rest
  end.

(** ** The line reader, [iter_lines] *)

(** A generator object of [iter_lines]: just created, or suspended at its
    [yield] with the local [buff]; both hold the socket. *)
Inductive generator : Type :=
| Created (sock : socket)
| Suspended (buff : string) (sock : socket).

(** What [next(lines)] does: the generator yields a line and suspends,
    returns (which raises [StopIteration] carrying the returned value), or
    raises.  In the last two cases the socket is left in the state given. *)
Inductive next_result : Type :=
| Yield (line : string) (lines : generator)
| StopIteration (value : string) (sock : socket)
| Raise (e : exn) (sock : socket).

(** One pass through the body of the inner [while True] (lines 22 to 30),
    where [break_] is what follows the loop. *)
Definition search (buff : string) (sock : socket)
           (break_ : string -> next_result) : next_result :=
  match str_index buff CRLF with
  | inr i =>
      let line := Str.take i buff in
      let buff := Str.drop (i + 2) buff in
      if Str.is_empty line then StopIteration buff sock
      else Yield line (Suspended buff sock)
  | inl IndexError => break_ buff
  | inl e => Raise e sock
  end.

(** The outer [while True] from its head (line 14), with [recv] unfolded so
    that the recursion is on the socket. *)
Fixpoint receive (sock : socket) (buff : string) {struct sock} : next_result :=
  match sock with
  | [] => StopIteration EmptyString []
  | data :: rest =>
      if Str.is_empty data then StopIteration EmptyString sock
      else search (buff ++ data) rest (receive rest)
  end.

Definition iter_lines (sock : socket) : generator := Created sock.

(** [next(lines)]: a new generator starts at the top of the function, a
    suspended one resumes after its [yield], inside the inner loop. *)
Definition next (lines : generator) : next_result :=
  match lines with
  | Created sock => receive sock EmptyString
  | Suspended buff sock => search buff sock (receive sock)
  end.

(** ** The body reader *)

Record BodyReader : Type := { _sock : socket; _buff : string }.

(** The [while] loop of [BodyReader.read] (lines 45 to 50), with [recv]
    unfolded. *)
Fixpoint fill (n : Z) (buff : string) (sock : socket) {struct sock} : string * socket :=
  if (Z.of_nat (String.length buff) <? n)%Z then
    match sock with
    | [] => (buff, [])
    | data :: rest =>
        if Str.is_empty data then (buff, sock)
        else fill n (buff ++ data) rest
    end
  else (buff, sock).

(** [BodyReader.read]: the text returned and the reader afterwards. *)
Definition read (n : Z) (self : BodyReader) : string * BodyReader :=
  let '(buff, sock) := fill n (_buff self) (_sock self) in
  (Str.slice_to n buff, {| _sock := sock; _buff := Str.slice_from n buff |}).

(** ** Headers *)

Module Headers.

(** Modelled from the spec: the class [Headers] of [headers.py], which is
    not among the sources.  It is a case-insensitive multimap from names
    to values: [add] keeps duplicates, in insertion order, and [get]
    returns the first value added under the name, whatever its case, or
    the default.  Names are kept in lower case. *)
Definition t : Type := list (string * string).

Definition empty : t := [].

Definition add (name value : string) (self : t) : t :=
  (self ++ [(Str.lower name, value)])%list.

Definition first_match (name : string) (self : t) : option string :=
  option_map snd
    (List.find (fun entry => String.eqb (fst entry) (Str.lower name)) self).

Definition get (name default : string) (self : t) : string :=
  match first_match name self with
  | Some value => value
  | None => default
  end.

End Headers.

(** ** The request parser *)

Record Request : Type := {
  method : string;
  path : string;
  headers : Headers.t;
  body : BodyReader
}.

Notation "'do' x <- e ; k" :=
  (match e with inl err => inl err | inr x => k end)
  (at level 10, x pattern, e at level 100, k at level 200, only parsing).

(** [a, b, c = tokens]. *)
Definition unpack3 (tokens : list string) : result (string * string * string) :=
  match tokens with
  | [a; b; c] => inr (a, b, c)
  | _ => inl (ValueError UnpackMismatch)
  end.

(** Lines 76 to 81: the method and the path of a request line. *)
Definition split_request_line (request_line : string) : result (string * string) :=
  except_ValueError
    (do (method, path, _) <- unpack3 (Str.split " " request_line);
     inr (method, path))
    (inl (ValueError (MalformedRequestLine request_line))).

(** Lines 92 to 96: one header line added to the headers. *)
Definition add_header_line (line : string) (headers : Headers.t) : result Headers.t :=
  except_ValueError
    (let '(name, _, value) := Str.partition ":" line in
     inr (Headers.add name (Str.lstrip value) headers))
    (inl (ValueError (MalformedHeaderLine line))).

(** The characters a generator still holds or can still receive. *)
Fixpoint total (sock : socket) : nat :=
  match sock with
  | [] => 0
  | data :: rest => String.length data + total rest
  end.

Definition size (lines : generator) : nat :=
  match lines with
  | Created sock => total sock
  | Suspended buff sock => String.length buff + total sock
  end.

Definition inspect {A} (a : A) : {b : A | a = b} := exist _ a eq_refl.

(** The loop of lines 85 to 96: the headers, the remainder that the
    generator returned and the socket as the generator left it.  It ends
    because a line that is yielded, and its terminator, leave the buffer. *)
Equations? read_headers (lines : generator) (headers : Headers.t)
  : result (Headers.t * string * socket) by wf (size lines) lt :=
  read_headers lines headers with inspect (next lines) := {
    | exist _ (StopIteration value sock) _ => inr (headers, value, sock);
    | exist _ (Raise e _) _ => inl e;
    | exist _ (Yield line lines') _ with add_header_line line headers => {
        | inl e => inl e;
        | inr headers' => read_headers lines' headers' } }.
Proof.
  assert (Hdrop : forall n s, String.length (Str.drop n s) = String.length s - n).
  { intros n; induction n as [|n IH]; intros [|c s]; simpl; auto. }
  assert (Happ : forall s1 s2,
             String.length (s1 ++ s2) = String.length s1 + String.length s2).
  { intros s1 s2; induction s1 as [|c s1 IH]; simpl; auto. }
  assert (Hsearch : forall buff sock break_ l g,
             (forall b, break_ b = Yield l g -> size g < String.length b + total sock) ->
             search buff sock break_ = Yield l g ->
             size g < String.length buff + total sock).
  { intros buff sock break_ l g Hbreak. unfold search, str_index.
    destruct (Str.find buff CRLF) as [i|]; [|discriminate].
    destruct i as [|i]; [destruct buff; discriminate|].
    destruct buff as [|c buff]; [discriminate|]. simpl.
    intros H; injection H as _ <-. simpl. rewrite Hdrop. lia. }
  assert (Hreceive : forall sock buff l g,
             receive sock buff = Yield l g ->
             size g < String.length buff + total sock).
  { intros sock; induction sock as [|data rest IH]; intros buff l g; simpl.
    - discriminate.
    - destruct (Str.is_empty data); [discriminate|].
      intros H. apply Hsearch in H.
      + rewrite Happ in H. lia.
      + intros b Hb. apply IH in Hb. lia. }
  destruct lines as [sock0|buff0 sock0]; simpl in *.
  - match goal with H : receive _ _ = Yield _ _ |- _ => apply Hreceive in H end.
    simpl in *. assumption.
  - match goal with H : search _ _ _ = Yield _ _ |- _ => apply Hsearch in H end.
    + assumption.
    + intros b Hb. apply Hreceive in Hb. assumption.
Qed.

(** [Request.from_socket]. *)
Definition from_socket (sock : socket) : result Request :=
  let lines := iter_lines sock in
  match next lines with
  | StopIteration _ _ => inl (ValueError RequestLineMissing)
  | Raise e _ => inl e
  | Yield request_line lines =>
      do (method, path) <- split_request_line request_line;
      do (headers, buff, sock) <- read_headers lines Headers.empty;
      inr {| method := Str.upper method;
             path := path;
             headers := headers;
             body := {| _sock := sock; _buff := buff |} |}
  end.

(** ** Library functions used by the server *)

Definition digit_value (c : ascii) : option Z :=
  let n := nat_of_ascii c in
  if ((48 <=? n) && (n <=? 57))%nat then Some (Z.of_nat (n - 48)) else None.

(** The digits of a decimal literal: at least one digit, and single
    underscores only between two digits. *)
Fixpoint digits (s : string) (acc : Z) (after_digit : bool) : option Z :=
  match s with
  | EmptyString => if after_digit then Some acc else None
  | String c s' =>
      match digit_value c with
      | Some d => digits s' (10 * acc + d) true
      | None =>
          if Ascii.eqb c "_" && after_digit then digits s' acc false else None
      end
  end.

(** The white space that [int] skips around an ASCII literal: tab, line
    feed, vertical tab, form feed, carriage return and space.  The
    separators 28 to 31, which [str.isspace] accepts, are not among them. *)
Definition int_space (c : ascii) : bool :=
  let n := nat_of_ascii c in
  ((9 <=? n) && (n <=? 13) || (n =? 32))%nat.

Definition int_strip (s : string) : string :=
  Str.rev (Str.lstrip_by int_space (Str.rev (Str.lstrip_by int_space s))).

(** The digits of a literal, its underscores not counted. *)
Fixpoint digit_count (s : string) : nat :=
  match s with
  | EmptyString => 0
  | String c s' =>
      match digit_value c with
      | Some _ => S (digit_count s')
      | None => digit_count s'
      end
  end.

(** The most digits that [int] converts, [sys.int_max_str_digits] as the
    interpreter sets it. *)
Definition int_max_str_digits : nat := 4300.

(** [int(s)] on ASCII text: white space around an optional sign and the
    digits; a [ValueError] for any other text, and for more digits than
    the interpreter converts. *)
Definition py_int (s : string) : result Z :=
  let literal := int_strip s in
  let '(sign, ds) :=
    match literal with
    | String "-" ds => ((-1)%Z, ds)
    | String "+" ds => (1%Z, ds)
    | _ => (1%Z, literal)
    end in
  match digits ds 0 false with
  | Some v =>
      if (int_max_str_digits <? digit_count ds)%nat
      then inl (ValueError (InvalidLiteral s))
      else inr (sign * v)%Z
  | None => inl (ValueError (InvalidLiteral s))
  end.

Module posixpath.

(** [os.path.join(a, b)]. *)
Definition join (a b : string) : string :=
  if Str.startswith b "/" then b
  else if Str.is_empty a || Str.endswith a "/" then a ++ b
  else a ++ "/" ++ b.

Definition last_is (comp : string) (comps : list string) : bool :=
  match List.rev comps with
  | c :: _ => String.eqb c comp
  | [] => false
  end.

(** The loop of [normpath] over the components of the path. *)
Fixpoint collapse (initial_slashes : nat) (comps new_comps : list string)
  : list string :=
  match comps with
  | [] => new_comps
  | comp :: comps =>
      if String.eqb comp "" || String.eqb comp "." then
        collapse initial_slashes comps new_comps
      else if negb (String.eqb comp "..")
              || (Nat.eqb initial_slashes 0 && Nat.eqb (List.length new_comps) 0)
              || last_is ".." new_comps then
        collapse initial_slashes comps (new_comps ++ [comp])
      else
        collapse initial_slashes comps (removelast new_comps)
  end.

Fixpoint slashes (n : nat) : string :=
  match n with
  | 0 => EmptyString
  | S n => String "/" (slashes n)
  end.

(** [os.path.normpath(path)]. *)
Definition normpath (path : string) : string :=
  if Str.is_empty path then "."
  else
    let initial_slashes :=
      if Str.startswith path "/" then
        if Str.startswith path "//" && negb (Str.startswith path "///")
        then 2 else 1
      else 0 in
    let comps := collapse initial_slashes (Str.split "/" path) [] in
    let path := slashes initial_slashes ++ Str.join "/" comps in
    if Str.is_empty path then "." else path.

End posixpath.

Module Response.

(** Modelled from the spec: the class [Response] of [response.py], which is
    not among the sources.  A response is built from a status line and
    either inline content or a readable body, here the text of the opened
    file; it has a headers multimap of its own, and [send] writes it to the
    connection. *)
Record t : Type := {
  status : string;
  headers : Headers.t;
  content : option string;
  body : option string
}.

Definition make (status : string) (content body : option string) : t :=
  {| status := status; headers := Headers.empty; content := content; body := body |}.

Definition add_header (name value : string) (self : t) : t :=
  {| status := status self;
     headers := Headers.add name value (headers self);
     content := content self;
     body := body self |}.

End Response.

(** ** What a handler does to the outside *)

Inductive event : Type :=
| Send (response : Response.t)     (* [response.send(sock)] *)
| Open (abspath : string)          (* [open(abspath, "rb")] *)
| BodyRead (n : Z) (data : string) (* [request.body.read(n)] and its result *)
| Close.                           (* leaving [with client_sock] *)

(** A handler computation: the events so far, and a value or the exception
    that ended it. *)
Definition io (A : Type) : Type := list event * result A.

Definition ret {A} (a : A) : io A := ([], inr a).

Definition bind {A B} (m : io A) (k : A -> io B) : io B :=
  match m with
  | (t, inl e) => (t, inl e)
  | (t, inr a) => let '(t', r) := k a in ((t ++ t')%list, r)
  end.

Notation "x <- m ;; k" := (bind m (fun x => k))
  (at level 61, m at next level, right associativity).
Notation "m ;; k" := (bind m (fun _ => k))
  (at level 61, right associativity).

Definition emit (e : event) : io unit := ([e], inr tt).

Definition lift {A} (r : result A) : io A := ([], r).

(** [try: m except ...: handler], for the exceptions that [catches]
    accepts. *)
Definition try_except {A} (m : io A) (catches : exn -> bool) (handler : io A) : io A :=
  match m with
  | (t, inl e) =>
      if catches e then let '(t', r) := handler in ((t ++ t')%list, r)
      else (t, inl e)
  | done => done
  end.

(** [with client_sock: m]: the socket is closed however [m] ends. *)
Definition with_socket {A} (m : io A) : io A :=
  let '(t, r) := m in ((t ++ [Close])%list, r).

Definition send (response : Response.t) : io unit := emit (Send response).

Definition is_FileNotFoundError (e : exn) : bool :=
  match e with FileNotFoundError => true | _ => false end.

Definition is_Exception (e : exn) : bool := true.

Definition SERVER_ROOT : string := "www".

Definition not_found : Response.t :=
  Response.make "404 Not Found" (Some "Not Found") None.

Definition method_not_allowed : Response.t :=
  Response.make "405 Method Not Allowed" (Some "Method Not Allowed") None.

Definition bad_request : Response.t :=
  Response.make "400 Bad Request" (Some "Bad Request") None.

Definition continue : Response.t := Response.make "100 Continue" None None.

(** The path that [serve_file] opens for a request path (line 24). *)
Definition resolve (path : string) : string :=
  posixpath.normpath (posixpath.join SERVER_ROOT (Str.lstrip_char "/" path)).

Section Server.

(** The file system, as [open(abspath, "rb")] sees it: the text of the file,
    or the exception raised. *)
Variable open_ : string -> result string.

(** [mimetypes.guess_type]: the content type and the encoding, if known. *)
Variable guess_type : string -> option string * option string.

(** [serve_file], lines 16 to 46. *)
Definition serve_file (path : string) : io unit :=
  let path := if String.eqb path "/" then "/index.html" else path in
  let abspath := resolve path in
  if negb (Str.startswith abspath SERVER_ROOT) then
    send not_found
  else
    try_except
      (emit (Open abspath) ;;
       f <- lift (open_ abspath) ;;
       let '(content_type, encoding) := guess_type abspath in
       let content_type :=
         match content_type with
         | None => "application/octet-stream"
         | Some content_type => content_type
         end in
       let content_type :=
         match encoding with
         | Some encoding => content_type ++ "; charset=" ++ encoding
         | None => content_type
         end in
       let response := Response.make "200 OK" None (Some f) in
       let response := Response.add_header "content-type" content_type response in
       send response)
      is_FileNotFoundError
      (send not_found).

(** The length of the body that the request announces (lines 88 to 91). *)
Definition content_length_of (request : Request) : result Z :=
  except_ValueError
    (py_int (Headers.get "content-length" "0" (headers request)))
    (inr 0%Z).

(** Lines 84 to 104 of [handle_client]: what the worker does with a parsed
    request. *)
Definition handle_request (request : Request) : io unit :=
  (if Str.contains "100-continue" (Headers.get "expect" "" (headers request))
   then send continue else ret tt) ;;
  content_length <- lift (content_length_of request) ;;
  (if negb (content_length =? 0)%Z then
     let '(data, _) := read content_length (body request) in
     emit (BodyRead content_length data)
   else ret tt) ;;
  if negb (String.eqb (method request) "GET") then
    send method_not_allowed
  else
    serve_file (path request).

(** [HTTPWorker.handle_client], lines 77 to 108. *)
Definition handle_client (client_sock : socket) : io unit :=
  with_socket
    (try_except
       (request <- lift (from_socket client_sock) ;;
        handle_request request)
       is_Exception
       (send bad_request)).

End Server.

(** ** Observations on the events of a handler *)

(** The calls of [request.body.read], with their results. *)
Fixpoint body_reads (trace : list event) : list (Z * string) :=
  match trace with
  | [] => []
  | BodyRead n data :: trace => (n, data) :: body_reads trace
  | _ :: trace => body_reads trace
  end.

(** The paths given to [open]. *)
Fixpoint opened (trace : list event) : list string :=
  match trace with
  | [] => []
  | Open abspath :: trace => abspath :: opened trace
  | _ :: trace => opened trace
  end.

(** The events that only [serve_file] produces: opening a file, and
    sending one of its two responses. *)
Definition serves (e : event) : bool :=
  match e with
  | Open _ => true
  | Send response =>
      String.eqb (Response.status response) "404 Not Found"
      || String.eqb (Response.status response) "200 OK"
  | _ => false
  end.

(** The body length in the words of the specification: the value of the
    Content-Length header, and 0 when the header is absent or is not an
    integer. *)
Definition spec_body_length (request : Request) : Z :=
  match Headers.first_match "content-length" (headers request) with
  | None => 0%Z
  | Some value =>
      match py_int value with
      | inr n => n
      | inl _ => 0%Z
      end
  end.

(** ** Notions for the further properties *)

(** How often a character occurs in a text. *)
Fixpoint count_char (c : ascii) (s : string) : nat :=
  match s with
  | EmptyString => 0
  | String d s' => (if Ascii.eqb d c then 1 else 0) + count_char c s'
  end.

(** Lines as they are on the wire: each one followed by the terminator. *)
Fixpoint lines_text (lines : list string) : string :=
  match lines with
  | [] => EmptyString
  | line :: lines => line ++ CRLF ++ lines_text lines
  end.

(** A request on the wire: the request line, the header lines, the empty
    line, and what follows. *)
Definition wire (request_line : string) (lines : list string) (rest : string) : string :=
  request_line ++ CRLF ++ lines_text lines ++ CRLF ++ rest.

(** The header that line 93 and line 94 make of a line. *)
Definition header_of_line (line : string) : string * string :=
  let '(name, _, value) := Str.partition ":" line in
  (Str.lower name, Str.lstrip value).

(** A response other than the interim "100 Continue". *)
Definition is_final (e : event) : bool :=
  match e with
  | Send response => negb (String.eqb (Response.status response) "100 Continue")
  | _ => false
  end.

(** A path component that [normpath] keeps as it is: not empty, not "." and
    not "..", and without a slash. *)
Definition plain (comp : string) : bool :=
  negb (String.eqb comp "") && negb (String.eqb comp ".")
  && negb (String.eqb comp "..") && Nat.eqb (count_char "/" comp) 0.

(** ** Inputs of the examples *)

Definition ab_cdef : BodyReader := {| _sock := ["cdef"]; _buff := "ab" |}.

Definition index_request : string :=
  "GET /index.html HTTP/1.1" ++ CRLF ++ "Host: x" ++ CRLF ++ CRLF.

Definition short_request : string := "GET /" ++ CRLF ++ CRLF.

Definition bad_header_request : string :=
  "GET / HTTP/1.1" ++ CRLF ++ "BadHeader" ++ CRLF ++ CRLF.

(** A text delivered one character at a time. *)
Fixpoint bytewise (s : string) : socket :=
  match s with
  | EmptyString => []
  | String c s' => String c EmptyString :: bytewise s'
  end.

Definition post_request : string :=
  "POST /form HTTP/1.1" ++ CRLF ++ "Content-Length: 3" ++ CRLF ++ CRLF ++ "abc".

(** What [post_request] parses to when it arrives in one piece. *)
Definition post_parsed : Request :=
  {| method := "POST"; path := "/form"; headers := [("content-length", "3")];
     body := {| _sock := []; _buff := "abc" |} |}.

(** A request that announces five units and is followed by three. *)
Definition short_body_request : string :=
  "POST /form HTTP/1.1" ++ CRLF ++ "Content-Length: 5" ++ CRLF ++ CRLF ++ "abc".

(** A request whose Content-Length ends with the separator 28. *)
Definition separator_request : string :=
  "POST /form HTTP/1.1" ++ CRLF ++ "Content-Length: 2" ++ String "028" CRLF
  ++ CRLF ++ "ab".

(** A literal of [n] digits. *)
Fixpoint ones (n : nat) : string :=
  match n with
  | 0 => EmptyString
  | S n => String "1" (ones n)
  end.

(** A server root without files, and no known content types. *)
Definition no_files (abspath : string) : result string := inl FileNotFoundError.
Definition no_types (abspath : string) : option string * option string := (None, None).

(** A server root where [open] fails, for a reason other than a missing
    file. *)
Definition unreadable (abspath : string) : result string := inl OSError.

(** [open] fails for the file of a [GET] request inside the root, with an
    exception other than that of a missing file. *)
Definition open_fails (open_ : string -> result string) (request : Request)
           (e : exn) : Prop :=
  method request = "GET" /\
  let abspath :=
    resolve (if String.eqb (path request) "/" then "/index.html" else path request) in
  Str.startswith abspath SERVER_ROOT = true /\
  open_ abspath = inl e /\ e <> FileNotFoundError.

(** The events that may come before the answer to the method: the interim
    response and the read of the body. *)
Definition preamble (ev : event) : Prop :=
  ev = Send continue \/ exists n data, ev = BodyRead n data.

(** The answer to the method of a parsed request (lines 97 to 104). *)
Definition answer (open_ : string -> result string)
           (guess_type : string -> option string * option string)
           (request : Request) : io unit :=
  if negb (String.eqb (method request) "GET") then send method_not_allowed
  else serve_file open_ guess_type (path request).

(** * Properties *)

(** ** Strings *)

Lemma append_empty_r (s : string) : s ++ "" = s.
Proof. induction s as [|c s IH]; simpl; congruence. Qed.

Lemma append_assoc (s1 s2 s3 : string) : (s1 ++ s2) ++ s3 = s1 ++ s2 ++ s3.
Proof. induction s1 as [|c s1 IH]; simpl; congruence. Qed.

Lemma length_append (s1 s2 : string) :
  String.length (s1 ++ s2) = String.length s1 + String.length s2.
Proof. induction s1 as [|c s1 IH]; simpl; auto. Qed.

Lemma length_take (n : nat) (s : string) :
  String.length (Str.take n s) = Nat.min n (String.length s).
Proof. revert s; induction n as [|n IH]; intros [|c s]; simpl; auto. Qed.

Lemma take_append (n : nat) (s1 s2 : string) :
  n <= String.length s1 -> Str.take n (s1 ++ s2) = Str.take n s1.
Proof.
  revert s1; induction n as [|n IH]; intros s1 H; [reflexivity|].
  destruct s1 as [|c s1]; simpl in *; [lia|].
  rewrite IH by lia. reflexivity.
Qed.

Lemma drop_append (n : nat) (s1 s2 : string) :
  n <= String.length s1 -> Str.drop n (s1 ++ s2) = Str.drop n s1 ++ s2.
Proof.
  revert s1; induction n as [|n IH]; intros s1 H; [reflexivity|].
  destruct s1 as [|c s1]; simpl in *; [lia|].
  apply IH; lia.
Qed.

Lemma is_empty_true (s : string) : Str.is_empty s = true -> s = "".
Proof. destruct s; [reflexivity | discriminate]. Qed.

Lemma bound_nonneg (n : Z) (s : string) : (0 <= n)%Z -> Str.bound n s = Z.to_nat n.
Proof. unfold Str.bound. intros H. destruct (Z.leb_spec 0 n); [reflexivity | lia]. Qed.

(** ** The loops and [recv] *)

(** The two loops that receive are written by recursion on the socket;
    these are their bodies with the call of [recv] as the source has it. *)
Lemma receive_recv (sock : socket) (buff : string) :
  receive sock buff
  = let '(data, sock') := recv sock in
    if Str.is_empty data then StopIteration EmptyString sock'
    else search (buff ++ data) sock' (receive sock').
Proof.
  destruct sock as [|data rest]; simpl; [reflexivity|].
  destruct (Str.is_empty data) eqn:E; simpl; [reflexivity|].
  rewrite E. reflexivity.
Qed.

Lemma fill_recv (n : Z) (buff : string) (sock : socket) :
  fill n buff sock
  = if (Z.of_nat (String.length buff) <? n)%Z then
      let '(data, sock') := recv sock in
      if Str.is_empty data then (buff, sock') else fill n (buff ++ data) sock'
    else (buff, sock).
Proof.
  destruct sock as [|data rest]; simpl; [reflexivity|].
  destruct (Z.of_nat (String.length buff) <? n)%Z; [|reflexivity].
  destruct (Str.is_empty data) eqn:E; simpl; [reflexivity|].
  rewrite E. reflexivity.
Qed.

(** ** The body reader *)

(** The loop of [read] loses nothing of the stream, and stops with enough
    in the buffer or with the stream at its end. *)
Lemma fill_stream (n : Z) (sock : socket) : forall buff buff' sock',
  fill n buff sock = (buff', sock') ->
  buff' ++ pending sock' = buff ++ pending sock /\
  ((n <= Z.of_nat (String.length buff'))%Z \/ pending sock' = "").
Proof.
  induction sock as [|data rest IH]; intros buff buff' sock'; simpl.
  - destruct (Z.ltb_spec (Z.of_nat (String.length buff)) n);
      intros H'; injection H' as <- <-; simpl; auto.
  - destruct (Z.ltb_spec (Z.of_nat (String.length buff)) n).
    + destruct (Str.is_empty data) eqn:E.
      * intros H'; injection H' as <- <-; simpl. rewrite E. auto.
      * intros H'. apply IH in H'. rewrite append_assoc in H'. exact H'.
    + intros H'; injection H' as <- <-; simpl. auto.
Qed.

(** With enough in the buffer the loop does not run. *)
Lemma fill_enough (n : Z) (buff : string) (sock : socket) :
  (n <= Z.of_nat (String.length buff))%Z -> fill n buff sock = (buff, sock).
Proof.
  intros H. destruct sock; simpl;
    destruct (Z.ltb_spec (Z.of_nat (String.length buff)) n); auto; lia.
Qed.

(** [read n] hands out the first [n] units of the buffer followed by the
    stream, and keeps the rest of them for the calls that follow. *)
Lemma read_stream (n : Z) (self : BodyReader) :
  (0 <= n)%Z ->
  fst (read n self) = Str.take (Z.to_nat n) (_buff self ++ pending (_sock self)) /\
  _buff (snd (read n self)) ++ pending (_sock (snd (read n self)))
  = Str.drop (Z.to_nat n) (_buff self ++ pending (_sock self)).
Proof.
  intros Hn. unfold read.
  destruct (fill n (_buff self) (_sock self)) as [buff' sock'] eqn:E.
  apply fill_stream in E. destruct E as [<- Hstop]. simpl.
  unfold Str.slice_to, Str.slice_from. rewrite bound_nonneg by assumption.
  destruct Hstop as [Hlen | Hend].
  - rewrite take_append, drop_append by lia. auto.
  - rewrite Hend, !append_empty_r. auto.
Qed.

(** C3: for [n >= 0], [read n] returns the first [n] units of the buffered
    remainder followed by what the connection delivers before end of
    stream, that is [min n total] units with the remainder served first,
    and what lies beyond [n] stays available to the calls that follow. *)
Theorem read_returns_min (n : Z) (self : BodyReader) :
  (0 <= n)%Z ->
  let stream := _buff self ++ pending (_sock self) in
  fst (read n self) = Str.take (Z.to_nat n) stream /\
  Z.of_nat (String.length (fst (read n self)))
  = Z.min n (Z.of_nat (String.length stream)) /\
  _buff (snd (read n self)) ++ pending (_sock (snd (read n self)))
  = Str.drop (Z.to_nat n) stream.
Proof.
  intros Hn stream. destruct (read_stream n self Hn) as [Hdata Hrest].
  fold stream in Hdata, Hrest. repeat split; try assumption.
  rewrite Hdata, length_take. lia.
Qed.

(** With remainder "ab" and connection data "cdef", [read 5] returns
    "abcde" and the [read 1] after it returns "f". *)
Lemma read_returns_min_witness :
  fst (read 5 ab_cdef) = "abcde" /\ fst (read 1 (snd (read 5 ab_cdef))) = "f".
Proof.
  split.
  - exact (proj1 (read_returns_min 5 ab_cdef ltac:(lia))).
  - exact (proj1 (read_returns_min 1 (snd (read 5 ab_cdef)) ltac:(lia))).
Defined.

(** The same for every way the connection cuts "cdef" into pieces. *)
Lemma read_example (sock : socket) :
  pending sock = "cdef" ->
  let self := {| _sock := sock; _buff := "ab" |} in
  fst (read 5 self) = "abcde" /\ fst (read 1 (snd (read 5 self))) = "f".
Proof.
  intros Hsock self.
  destruct (read_stream 5 self ltac:(lia)) as [H5 Hrest].
  destruct (read_stream 1 (snd (read 5 self)) ltac:(lia)) as [H1 _].
  rewrite Hrest in H1. simpl in H5, H1. rewrite Hsock in H5, H1.
  split; assumption.
Qed.

(** C10: when the buffer holds at least [n] units, [read n] returns its
    first [n] units, keeps the others, and leaves the socket as it was:
    nothing is received. *)
Theorem read_from_buffer (n : Z) (self : BodyReader) :
  (0 <= n <= Z.of_nat (String.length (_buff self)))%Z ->
  fill n (_buff self) (_sock self) = (_buff self, _sock self) /\
  read n self
  = (Str.take (Z.to_nat n) (_buff self),
     {| _sock := _sock self; _buff := Str.drop (Z.to_nat n) (_buff self) |}).
Proof.
  intros [Hn Hlen]. unfold read. rewrite fill_enough by assumption.
  unfold Str.slice_to, Str.slice_from. rewrite bound_nonneg by assumption.
  split; reflexivity.
Qed.

(** [read 0] and [read 2] on the buffer "ab": the socket keeps "cdef". *)
Lemma read_from_buffer_witness :
  read 0 ab_cdef = ("", ab_cdef) /\
  read 2 ab_cdef = ("ab", {| _sock := ["cdef"]; _buff := "" |}).
Proof.
  split.
  - exact (proj2 (read_from_buffer 0 ab_cdef ltac:(simpl; lia))).
  - exact (proj2 (read_from_buffer 2 ab_cdef ltac:(simpl; lia))).
Defined.

(** ** The line reader *)

Lemma search_raise buff sock break_ e sock' :
  (forall b, break_ b = Raise e sock' -> e = ValueError SubstringNotFound) ->
  search buff sock break_ = Raise e sock' ->
  e = ValueError SubstringNotFound.
Proof.
  intros Hbreak. unfold search, str_index.
  destruct (Str.find buff CRLF) as [i|].
  - destruct (Str.is_empty (Str.take i buff)); discriminate.
  - intros H; injection H as <- _. reflexivity.
Qed.

Lemma receive_raise sock : forall buff e sock',
  receive sock buff = Raise e sock' -> e = ValueError SubstringNotFound.
Proof.
  induction sock as [|data rest IH]; intros buff e sock'; simpl.
  - discriminate.
  - destruct (Str.is_empty data); [discriminate|].
    apply search_raise. intros b. apply IH.
Qed.

(** The only exception that leaves the generator is the [ValueError] of
    [str.index]. *)
Lemma next_raise lines e sock :
  next lines = Raise e sock -> e = ValueError SubstringNotFound.
Proof.
  destruct lines as [sock0|buff sock0]; simpl.
  - apply receive_raise.
  - apply search_raise. intros b. apply receive_raise.
Qed.

(** Without a terminator in the buffer the search raises; it never reaches
    the [break] of line 30. *)
Lemma search_without_terminator buff sock break_ :
  Str.find buff CRLF = None ->
  search buff sock break_ = Raise (ValueError SubstringNotFound) sock.
Proof. intros H. unfold search, str_index. rewrite H. reflexivity. Qed.

(** A yielded line is not empty. *)
Lemma next_yield_nonempty lines line lines' :
  next lines = Yield line lines' -> line <> "".
Proof.
  assert (Hsearch : forall buff sock break_,
             (forall b, break_ b = Yield line lines' -> line <> "") ->
             search buff sock break_ = Yield line lines' -> line <> "").
  { intros buff sock break_ Hbreak. unfold search, str_index.
    destruct (Str.find buff CRLF) as [i|]; [|discriminate].
    destruct (Str.is_empty (Str.take i buff)) eqn:E; [discriminate|].
    intros H; injection H as <- _. intros Heq. rewrite Heq in E. discriminate. }
  assert (Hreceive : forall sock buff,
             receive sock buff = Yield line lines' -> line <> "").
  { induction sock as [|data rest IH]; intros buff; simpl; [discriminate|].
    destruct (Str.is_empty data); [discriminate|].
    apply Hsearch. intros b. apply IH. }
  destruct lines as [sock|buff sock]; simpl.
  - apply Hreceive.
  - apply Hsearch. intros b. apply Hreceive.
Qed.

(** ** The request parser *)

(** No header line is refused: [partition] gives three parts whether or not
    the line has a colon. *)
Lemma add_header_line_accepts (line : string) (headers : Headers.t) :
  add_header_line line headers
  = inr (Headers.add (fst (fst (Str.partition ":" line)))
                     (Str.lstrip (snd (Str.partition ":" line))) headers).
Proof.
  unfold add_header_line.
  destruct (Str.partition ":" line) as [[name sep] value]. reflexivity.
Qed.

Lemma read_headers_raise lines headers e :
  read_headers lines headers = inl e -> e = ValueError SubstringNotFound.
Proof.
  funelim (read_headers lines headers); intros He.
  - discriminate.
  - injection He as <-. eapply next_raise; eassumption.
  - rewrite add_header_line_accepts in *. discriminate.
  - eauto.
Qed.

Lemma split_request_line_ok (request_line method path : string) :
  split_request_line request_line = inr (method, path) <->
  exists version, Str.split " " request_line = [method; path; version].
Proof.
  unfold split_request_line, unpack3.
  destruct (Str.split " " request_line) as [|a [|b [|c [|d toks]]]]; simpl;
    split; try discriminate; try (intros [v Hv]; discriminate).
  - intros H; injection H as <- <-. exists c. reflexivity.
  - intros [v Hv]; injection Hv as <- <- <-. reflexivity.
Qed.

Lemma split_request_line_malformed (request_line : string) :
  List.length (Str.split " " request_line) <> 3 ->
  split_request_line request_line
  = inl (ValueError (MalformedRequestLine request_line)).
Proof.
  unfold split_request_line, unpack3.
  destruct (Str.split " " request_line) as [|a [|b [|c [|d toks]]]]; simpl;
    intros H; try reflexivity. contradiction.
Qed.

Lemma split_request_line_raise (request_line : string) (e : exn) :
  split_request_line request_line = inl e ->
  e = ValueError (MalformedRequestLine request_line) /\
  List.length (Str.split " " request_line) <> 3.
Proof.
  unfold split_request_line, unpack3.
  destruct (Str.split " " request_line) as [|a [|b [|c [|d toks]]]]; simpl;
    intros H; try discriminate; injection H as <-; split; auto; discriminate.
Qed.

(** The exceptions of [from_socket]: the request line is missing or
    malformed, or [str.index] found no terminator.  None of them is about a
    header line. *)
Lemma from_socket_raise (sock : socket) (e : exn) :
  from_socket sock = inl e ->
  e = ValueError RequestLineMissing \/
  e = ValueError SubstringNotFound \/
  exists request_line lines,
    next (iter_lines sock) = Yield request_line lines /\
    List.length (Str.split " " request_line) <> 3 /\
    e = ValueError (MalformedRequestLine request_line).
Proof.
  unfold from_socket.
  destruct (next (iter_lines sock)) as [request_line lines|value s|e' s] eqn:Hnext.
  - destruct (split_request_line request_line) as [e'|[method path]] eqn:Hline.
    + intros H; injection H as <-. apply split_request_line_raise in Hline.
      destruct Hline as [-> Hlen]. right; right. eauto.
    + destruct (read_headers lines Headers.empty) as [e'|[[hs buff] s]] eqn:Hhs.
      * intros H; injection H as <-. apply read_headers_raise in Hhs. auto.
      * discriminate.
  - intros H; injection H as <-. auto.
  - intros H; injection H as <-. apply next_raise in Hnext. auto.
Qed.

Lemma from_socket_never_reports_header_line (sock : socket) (line : string) :
  from_socket sock <> inl (ValueError (MalformedHeaderLine line)).
Proof.
  intros H. apply from_socket_raise in H.
  destruct H as [H|[H|(l & g & _ & _ & H)]]; discriminate.
Qed.

(** A first piece without a terminator ends the parse, whatever follows
    it on the connection. *)
Lemma from_socket_without_terminator (data : string) (rest : socket) :
  Str.is_empty data = false ->
  Str.find data CRLF = None ->
  from_socket (data :: rest) = inl (ValueError SubstringNotFound).
Proof.
  intros Hdata Hfind. unfold from_socket. simpl. rewrite Hdata.
  rewrite search_without_terminator by assumption. reflexivity.
Qed.

(** The inner loop leaves the socket alone: it yields, returns or raises
    on the socket it was entered with. *)
Lemma search_cases buff sock break_ :
  (exists line buff', search buff sock break_ = Yield line (Suspended buff' sock)) \/
  (exists value, search buff sock break_ = StopIteration value sock) \/
  search buff sock break_ = Raise (ValueError SubstringNotFound) sock.
Proof.
  unfold search, str_index. destruct (Str.find buff CRLF) as [i|]; [|auto].
  destruct (Str.is_empty (Str.take i buff)); eauto.
Qed.

Lemma read_headers_socket lines headers :
  forall buff sock headers' value sock',
    lines = Suspended buff sock ->
    read_headers lines headers = inr (headers', value, sock') ->
    sock' = sock.
Proof.
  funelim (read_headers lines headers); intros bf sk hs v s' -> Hread.
  - injection Hread as _ _ <-.
    destruct (search_cases bf sk (receive sk)) as [(l & b & Hcase)|[(w & Hcase)|Hcase]];
      simpl in *; congruence.
  - discriminate.
  - discriminate.
  - destruct (search_cases bf sk (receive sk)) as [(l & b & Hcase)|[(w & Hcase)|Hcase]];
      simpl in *; try congruence.
    assert (Hlines : lines' = Suspended b sk) by congruence.
    eauto.
Qed.

(** A parse that succeeds has received one piece and no more: the body
    reader starts on the socket as it is after the first [recv]. *)
Lemma from_socket_one_piece (sock : socket) (request : Request) :
  from_socket sock = inr request ->
  exists data rest, sock = data :: rest /\ _sock (body request) = rest.
Proof.
  unfold from_socket. destruct sock as [|data rest]; simpl; [discriminate|].
  destruct (Str.is_empty data); [discriminate|].
  destruct (search_cases ("" ++ data) rest (receive rest)) as [(l & b & H)|[(w & H)|H]];
    simpl in H; rewrite H; try discriminate.
  destruct (split_request_line l) as [e|[m p]]; [discriminate|].
  destruct (read_headers (Suspended b rest) Headers.empty) as [e|[[hs buff] s]] eqn:E;
    [discriminate|].
  intros Hreq; injection Hreq as <-. simpl.
  apply read_headers_socket with (buff := b) (sock := rest) in E; [|reflexivity].
  subst s. eauto.
Qed.

(** C1: the parse of a well-formed request depends on how its bytes are
    cut into pieces.  The request of the example parses when it arrives in
    one piece; cut after its request line, or delivered one byte at a
    time, the same bytes end in the [ValueError] of [str.index]. *)
Theorem from_socket_depends_on_fragments :
  from_socket [index_request]
  = inr {| method := "GET"; path := "/index.html"; headers := [("host", "x")];
           body := {| _sock := []; _buff := "" |} |} /\
  from_socket ["GET /index.html HTTP/1.1" ++ CRLF; "Host: x" ++ CRLF ++ CRLF]
  = inl (ValueError SubstringNotFound) /\
  Str.join "" (bytewise index_request) = index_request /\
  from_socket (bytewise index_request) = inl (ValueError SubstringNotFound).
Proof. repeat split; reflexivity. Qed.

(** C2: a header line without a colon is accepted: the request with the
    header line "BadHeader" parses, and the line becomes a header named
    "badheader" with an empty value. *)
Theorem from_socket_accepts_header_without_colon :
  from_socket [bad_header_request]
  = inr {| method := "GET"; path := "/"; headers := [("badheader", "")];
           body := {| _sock := []; _buff := "" |} |}.
Proof. reflexivity. Qed.


(** C5: a request line parses exactly when splitting it at single spaces
    gives three tokens, the method, the path and the version; with any
    other number of tokens [from_socket] raises the error that carries the
    line, and it raises that error in no other case. *)
Theorem request_line_three_tokens (sock : socket) (request_line : string)
        (lines : generator) :
  next (iter_lines sock) = Yield request_line lines ->
  (List.length (Str.split " " request_line) = 3 <->
   exists method path, split_request_line request_line = inr (method, path)) /\
  (List.length (Str.split " " request_line) <> 3 <->
   from_socket sock = inl (ValueError (MalformedRequestLine request_line))) /\
  (forall method path version,
      Str.split " " request_line = [method; path; version] ->
      from_socket sock =
      do (headers, buff, sock') <- read_headers lines Headers.empty;
      inr {| method := Str.upper method; path := path; headers := headers;
             body := {| _sock := sock'; _buff := buff |} |}).
Proof.
  intros Hnext. split; [|split].
  - split.
    + intros Hlen.
      destruct (Str.split " " request_line) as [|a [|b [|c [|d toks]]]] eqn:E;
        try discriminate.
      exists a, b. apply split_request_line_ok. exists c. assumption.
    + intros (m & p & H). apply split_request_line_ok in H.
      destruct H as [v ->]. reflexivity.
  - split.
    + intros Hlen. unfold from_socket. rewrite Hnext.
      rewrite split_request_line_malformed by assumption. reflexivity.
    + intros H. apply from_socket_raise in H.
      destruct H as [H|[H|(l & g & Hl & Hlen & H)]]; try discriminate.
      injection H as ->. assumption.
  - intros m p v Hsplit. unfold from_socket. rewrite Hnext.
    assert (H : split_request_line request_line = inr (m, p)).
    { apply split_request_line_ok. eauto. }
    rewrite H. reflexivity.
Qed.

(** The request line "GET /" has two tokens: [from_socket] raises the
    error of the malformed request line. *)
Lemma request_line_three_tokens_witness :
  from_socket [short_request]
  = inl (ValueError (MalformedRequestLine "GET /")).
Proof.
  apply (proj1 (proj2 (request_line_three_tokens
                         [short_request] "GET /" (Suspended CRLF []) eq_refl))).
  simpl. lia.
Defined.

(** C6: the line sequence can end in a third way.  When the request line
    and the empty line arrive in two pieces, the generator yields the
    request line and then raises the [ValueError] of [str.index]: it
    neither meets the empty line nor sees the end of the stream. *)
Theorem iter_lines_ends_by_exception :
  next (iter_lines ["GET / HTTP/1.1" ++ CRLF; CRLF])
  = Yield "GET / HTTP/1.1" (Suspended "" [CRLF]) /\
  next (Suspended "" [CRLF]) = Raise (ValueError SubstringNotFound) [CRLF].
Proof. split; reflexivity. Qed.

(** ** The file-serving handler *)

Section ServerProperties.

Variable open_ : string -> result string.
Variable guess_type : string -> option string * option string.

(** What [serve_file] does, by cases: outside the root it answers 404 at
    once; otherwise it opens the resolved path, and then sends a response
    or lets the exception of [open] through. *)
Lemma serve_file_cases (path : string) :
  let abspath := resolve (if String.eqb path "/" then "/index.html" else path) in
  (Str.startswith abspath SERVER_ROOT = false /\
   serve_file open_ guess_type path = ([Send not_found], inr tt)) \/
  (Str.startswith abspath SERVER_ROOT = true /\
   ((exists response,
        serves (Send response) = true /\
        serve_file open_ guess_type path = ([Open abspath; Send response], inr tt)) \/
    (exists e, serve_file open_ guess_type path = ([Open abspath], inl e)))).
Proof.
  intros abspath. unfold serve_file. fold abspath.
  destruct (Str.startswith abspath SERVER_ROOT); simpl; [right|left; auto].
  split; [reflexivity|].
  unfold try_except, bind, emit, lift, send.
  destruct (open_ abspath) as [e|f]; simpl.
  - destruct e; simpl; eauto. left. eexists. split; [|reflexivity]. reflexivity.
  - left. destruct (guess_type abspath) as [[ct|] [enc|]]; simpl;
      eexists; (split; [|reflexivity]); reflexivity.
Qed.

(** C9: [serve_file] opens a file only when the normalised join of "www"
    and the path without its leading slashes starts with "www", and what it
    opens starts with "www" too; when that path does not start with "www" it
    sends "404 Not Found" and does nothing else. *)
Theorem serve_file_opens_under_root (path : string) :
  let trace := fst (serve_file open_ guess_type path) in
  opened trace
  = (if Str.startswith (resolve path) SERVER_ROOT
     then [resolve (if String.eqb path "/" then "/index.html" else path)]
     else []) /\
  (forall abspath, In abspath (opened trace) ->
                   Str.startswith abspath SERVER_ROOT = true) /\
  (Str.startswith (resolve path) SERVER_ROOT = false ->
   serve_file open_ guess_type path = ([Send not_found], inr tt)).
Proof.
  intros trace. subst trace.
  pose proof (serve_file_cases path) as Hcases. simpl in Hcases.
  assert (Hroot : Str.startswith (resolve path) SERVER_ROOT
                  = Str.startswith
                      (resolve (if String.eqb path "/" then "/index.html" else path))
                      SERVER_ROOT).
  { destruct (String.eqb path "/") eqn:E; [|reflexivity].
    apply String.eqb_eq in E. rewrite E. reflexivity. }
  rewrite Hroot.
  destruct Hcases as [[Hout ->]|[Hin [(response & _ & ->)|(e & ->)]]];
    rewrite ?Hout, ?Hin; simpl; repeat split; auto; try discriminate;
    try contradiction; intros abspath [<-|[]]; assumption.
Qed.

(** ** The connection handler *)

(** [int] on some texts: white space and a sign are accepted, single
    underscores between digits too; the separator 28 is not white space
    here; and 4300 digits are converted, 4301 are not. *)
Lemma py_int_examples :
  py_int " +12 " = inr 12%Z /\ py_int "-1_0" = inr (-10)%Z /\
  py_int "007" = inr 7%Z /\
  py_int (String "2" (String "028" "")) = inl (ValueError (InvalidLiteral (String "2" (String "028" "")))) /\
  py_int "1__0" = inl (ValueError (InvalidLiteral "1__0")) /\
  py_int "" = inl (ValueError (InvalidLiteral "")) /\
  (exists v, py_int (ones 4300) = inr v) /\
  py_int (ones 4301) = inl (ValueError (InvalidLiteral (ones 4301))).
Proof.
  repeat split; try (vm_compute; reflexivity).
  eexists. vm_compute. reflexivity.
Qed.

Lemma py_int_raise (s : string) (e : exn) :
  py_int s = inl e -> exists m, e = ValueError m.
Proof.
  unfold py_int.
  destruct (match int_strip s with
            | String "-" ds => ((-1)%Z, ds)
            | String "+" ds => (1%Z, ds)
            | _ => (1%Z, int_strip s)
            end) as [sign ds].
  destruct (digits ds 0 false);
    [destruct (int_max_str_digits <? digit_count ds)%nat; [|discriminate]|];
    intros H; injection H as <-; eauto.
Qed.

(** The length computed by the handler is the one the specification
    describes. *)
Lemma content_length_of_spec (request : Request) :
  content_length_of request = inr (spec_body_length request).
Proof.
  unfold content_length_of, spec_body_length, Headers.get.
  destruct (Headers.first_match "content-length" (headers request)) as [value|];
    [|reflexivity].
  destruct (py_int value) as [e|n] eqn:E; [|reflexivity].
  apply py_int_raise in E. destruct E as [m ->]. reflexivity.
Qed.

Lemma body_reads_app (t1 t2 : list event) :
  body_reads (t1 ++ t2) = (body_reads t1 ++ body_reads t2)%list.
Proof.
  induction t1 as [|e t1 IH]; simpl; [reflexivity|].
  destruct e; simpl; rewrite ?IH; reflexivity.
Qed.

(** The handler of a parsed request, by parts: the interim response, the
    read of the body, and then the answer to the method. *)
Lemma handle_request_parts (request : Request) :
  let n := spec_body_length request in
  let interim :=
    if Str.contains "100-continue" (Headers.get "expect" "" (headers request))
    then [Send continue] else [] in
  let reads :=
    if (n =? 0)%Z then [] else [BodyRead n (fst (read n (body request)))] in
  handle_request open_ guess_type request
  = let '(answer, r) :=
      if negb (String.eqb (method request) "GET") then send method_not_allowed
      else serve_file open_ guess_type (path request) in
    ((interim ++ reads ++ answer)%list, r).
Proof.
  intros n interim reads. subst n interim reads.
  unfold handle_request. rewrite content_length_of_spec.
  generalize (spec_body_length request). intros n.
  unfold bind, lift, send, emit, ret.
  destruct (Str.contains "100-continue" (Headers.get "expect" "" (headers request)));
    destruct (n =? 0)%Z; simpl;
    destruct (read n (body request)) as [data self'];
    destruct (negb (String.eqb (method request) "GET")); simpl;
    try destruct (serve_file open_ guess_type (path request)) as [answer r];
    reflexivity.
Qed.

Lemma handle_client_parsed (client_sock : socket) (request : Request) :
  from_socket client_sock = inr request ->
  handle_client open_ guess_type client_sock
  = with_socket (try_except (handle_request open_ guess_type request)
                            is_Exception (send bad_request)).
Proof.
  intros H. unfold handle_client. rewrite H. unfold lift, bind.
  destruct (handle_request open_ guess_type request) as [t r]. reflexivity.
Qed.

Lemma serve_file_no_body_read (path : string) :
  body_reads (fst (serve_file open_ guess_type path)) = [].
Proof.
  destruct (serve_file_cases path) as [[_ ->]|[_ [(response & _ & ->)|(e & ->)]]];
    reflexivity.
Qed.

Lemma serve_file_serves (path : string) :
  existsb serves (fst (serve_file open_ guess_type path)) = true.
Proof.
  destruct (serve_file_cases path) as [[_ ->]|[_ [(response & _ & ->)|(e & ->)]]];
    reflexivity.
Qed.

(** Closing the socket and answering 400 to an exception add no read of
    the body. *)
Lemma body_reads_handled (m : io unit) :
  body_reads (fst (with_socket (try_except m is_Exception (send bad_request))))
  = body_reads (fst m).
Proof.
  destruct m as [t [e|[]]]; simpl; rewrite !body_reads_app; simpl;
    rewrite ?app_nil_r; reflexivity.
Qed.

(** C7: for a parsed request the handler takes the body length from the
    Content-Length header, with 0 when the header is absent or its value is
    not an integer.  When that length is not zero it calls [read] on the
    request's body reader once, with exactly that length, which hands out
    that many units of the stream (all of them when the stream is shorter);
    when it is zero it does not call [read]. *)
Theorem body_length_from_content_length (client_sock : socket) (request : Request) :
  from_socket client_sock = inr request ->
  let n := spec_body_length request in
  content_length_of request = inr n /\
  body_reads (fst (handle_client open_ guess_type client_sock))
  = (if (n =? 0)%Z then [] else [(n, fst (read n (body request)))]) /\
  ((0 <= n)%Z ->
   Z.of_nat (String.length (fst (read n (body request))))
   = Z.min n (Z.of_nat (String.length
                          (_buff (body request) ++ pending (_sock (body request)))))).
Proof.
  intros Hparsed n. split; [apply content_length_of_spec|]. split.
  - rewrite (handle_client_parsed _ _ Hparsed), body_reads_handled.
    pose proof (handle_request_parts request) as Hparts. cbv zeta in Hparts.
    fold n in Hparts. rewrite Hparts. clear Hparts.
    remember (if negb (String.eqb (method request) "GET")
              then send method_not_allowed
              else serve_file open_ guess_type (path request)) as m eqn:Em.
    assert (Hanswer : body_reads (fst m) = []).
    { subst m. destruct (negb (String.eqb (method request) "GET"));
        [reflexivity | apply serve_file_no_body_read]. }
    clear Em. destruct m as [answer r].
    simpl in Hanswer. simpl fst. rewrite !body_reads_app, Hanswer.
    destruct (Str.contains "100-continue" (Headers.get "expect" "" (headers request)));
      destruct (n =? 0)%Z; reflexivity.
  - intros Hn. rewrite (proj1 (read_stream n (body request) Hn)), length_take. lia.
Qed.

(** C8: for a parsed request whose method is not "GET" the handler sends
    "405 Method Not Allowed" and closes the connection, after at most the
    interim response and the read of the body; [serve_file] runs exactly
    when the method is "GET". *)
Theorem unsupported_method_gets_405 (client_sock : socket) (request : Request) :
  from_socket client_sock = inr request ->
  (method request <> "GET" ->
   exists before,
     handle_client open_ guess_type client_sock
     = ((before ++ [Send method_not_allowed; Close])%list, inr tt) /\
     Forall (fun e => e = Send continue \/ exists n data, e = BodyRead n data) before) /\
  (existsb serves (fst (handle_client open_ guess_type client_sock)) = true <->
   method request = "GET").
Proof.
  intros Hparsed. rewrite (handle_client_parsed _ _ Hparsed).
  pose proof (handle_request_parts request) as Hparts. cbv zeta in Hparts.
  rewrite Hparts. clear Hparts.
  set (interim := if Str.contains "100-continue"
                                  (Headers.get "expect" "" (headers request))
                  then [Send continue] else []).
  set (reads := if (spec_body_length request =? 0)%Z then []
                else [BodyRead (spec_body_length request)
                               (fst (read (spec_body_length request) (body request)))]).
  assert (Hbefore : Forall (fun e => e = Send continue \/ exists n data, e = BodyRead n data)
                           (interim ++ reads)).
  { apply Forall_app. subst interim reads. split.
    - destruct (Str.contains _ _); auto.
    - destruct (_ =? _)%Z; eauto. }
  assert (Hquiet : existsb serves (interim ++ reads) = false).
  { subst interim reads. destruct (Str.contains _ _); destruct (_ =? _)%Z; reflexivity. }
  destruct (String.eqb_spec (method request) "GET") as [Hget|Hother]; simpl negb; cbv iota.
  - split; [intros H; contradiction|]. split; [auto|]. intros _.
    pose proof (serve_file_serves (path request)) as Hserves.
    destruct (serve_file open_ guess_type (path request)) as [answer [e|[]]];
      simpl in *; rewrite !existsb_app, Hserves, !orb_true_r; reflexivity.
  - split.
    + intros _. exists (interim ++ reads)%list. split; [|assumption].
      simpl. rewrite <- !app_assoc. reflexivity.
    + split; [|intros H; contradiction]. simpl.
      rewrite (app_assoc interim reads).
      set (before := (interim ++ reads)%list) in *. clearbody before.
      rewrite !existsb_app, Hquiet. simpl. discriminate.
Qed.

End ServerProperties.

(** The request "POST /form" with "Content-Length: 3" and the body "abc":
    the handler reads the three units of the body, once. *)
Lemma body_length_from_content_length_witness :
  body_reads (fst (handle_client no_files no_types [post_request])) = [(3%Z, "abc")].
Proof.
  exact (proj1 (proj2 (body_length_from_content_length
                         no_files no_types [post_request] post_parsed eq_refl))).
Defined.

(** C7 as it was stated fails when the connection ends early: with
    Content-Length 5 and only "abc" after the empty line, the one read of
    the handler returns three units, not five. *)
Lemma body_read_falls_short :
  exists n data,
    body_reads (fst (handle_client no_files no_types [short_body_request]))
    = [(n, data)] /\
    n = 5%Z /\ Z.of_nat (String.length data) <> n.
Proof.
  exists 5%Z, "abc". repeat split. simpl. lia.
Qed.

(** A Content-Length that [int] refuses counts as 0: the body is not
    read. *)
Lemma unparsable_length_reads_nothing :
  body_reads (fst (handle_client no_files no_types [separator_request])) = [].
Proof. reflexivity. Qed.

(** The same request is answered with 405. *)
Lemma unsupported_method_gets_405_witness :
  exists before,
    handle_client no_files no_types [post_request]
    = ((before ++ [Send method_not_allowed; Close])%list, inr tt) /\
    Forall (fun e => e = Send continue \/ exists n data, e = BodyRead n data) before.
Proof.
  apply (proj1 (unsupported_method_gets_405
                  no_files no_types [post_request] post_parsed eq_refl)).
  discriminate.
Defined.

(** * Further properties *)

(** ** More on strings *)

Lemma take_drop (n : nat) (s : string) : Str.take n s ++ Str.drop n s = s.
Proof.
  revert s; induction n as [|n IH]; intros s; [reflexivity|].
  destruct s as [|c s]; simpl; [reflexivity|]. rewrite IH. reflexivity.
Qed.

Lemma take_all (n : nat) (s : string) :
  String.length s <= n -> Str.take n s = s.
Proof.
  revert s; induction n as [|n IH]; intros s H.
  - destruct s; simpl in *; [reflexivity | lia].
  - destruct s as [|c s]; simpl in *; [reflexivity|]. rewrite IH by lia. reflexivity.
Qed.

Lemma drop_all (n : nat) (s : string) :
  String.length s <= n -> Str.drop n s = "".
Proof.
  revert s; induction n as [|n IH]; intros s H.
  - destruct s; simpl in *; [reflexivity | lia].
  - destruct s as [|c s]; simpl in *; [reflexivity|]. apply IH. lia.
Qed.

Lemma length_drop (n : nat) (s : string) :
  String.length (Str.drop n s) = String.length s - n.
Proof. revert s; induction n as [|n IH]; intros [|c s]; simpl; auto. Qed.

Lemma drop_drop (n m : nat) (s : string) :
  Str.drop m (Str.drop n s) = Str.drop (n + m) s.
Proof.
  revert s; induction n as [|n IH]; intros s; [reflexivity|].
  destruct s as [|c s]; simpl; [destruct m; reflexivity | apply IH].
Qed.

Lemma take_take_drop (n m : nat) (s : string) :
  Str.take n s ++ Str.take m (Str.drop n s) = Str.take (n + m) s.
Proof.
  revert s; induction n as [|n IH]; intros s; [reflexivity|].
  destruct s as [|c s]; simpl; [destruct m; reflexivity|].
  rewrite IH. reflexivity.
Qed.

(** ** More on the body reader *)

(** X1: [read] loses nothing and invents nothing, whatever [n] is: what it
    returns, followed by what it keeps in its buffer and by what the
    connection still holds, is the stream as it was before the call. *)
Theorem read_conserves_stream (n : Z) (self : BodyReader) :
  fst (read n self) ++ _buff (snd (read n self)) ++ pending (_sock (snd (read n self)))
  = _buff self ++ pending (_sock self).
Proof.
  unfold read.
  destruct (fill n (_buff self) (_sock self)) as [buff' sock'] eqn:E.
  apply fill_stream in E. destruct E as [<- _]. simpl.
  unfold Str.slice_to, Str.slice_from.
  rewrite <- append_assoc, take_drop. reflexivity.
Qed.

(** X2: a negative [n] receives nothing: [read] returns the buffer without
    its last [-n] units, which stay in the buffer, and leaves the socket as
    it was. *)
Theorem read_negative (n : Z) (self : BodyReader) :
  (n < 0)%Z ->
  let kept := Z.to_nat (Z.of_nat (String.length (_buff self)) + n) in
  read n self
  = (Str.take kept (_buff self),
     {| _sock := _sock self; _buff := Str.drop kept (_buff self) |}) /\
  Z.of_nat (String.length (fst (read n self)))
  = Z.max 0 (Z.of_nat (String.length (_buff self)) + n).
Proof.
  intros Hn kept.
  assert (Hread : read n self
                  = (Str.take kept (_buff self),
                     {| _sock := _sock self; _buff := Str.drop kept (_buff self) |})).
  { unfold read. rewrite fill_enough by lia.
    unfold Str.slice_to, Str.slice_from, Str.bound.
    destruct (Z.leb_spec 0 n); [lia | reflexivity]. }
  split; [exact Hread|]. rewrite Hread. simpl. rewrite length_take. lia.
Qed.

(** [read (-1)] on the buffer "ab": "a" is returned, "b" is kept. *)
Lemma read_negative_witness :
  read (-1) ab_cdef = ("a", {| _sock := ["cdef"]; _buff := "b" |}).
Proof. exact (proj1 (read_negative (-1) ab_cdef ltac:(lia))). Defined.

(** X3: two reads in a row return consecutive pieces of the stream: joined,
    they are what one read of the two lengths together returns. *)
Theorem read_then_read (n m : Z) (self : BodyReader) :
  (0 <= n)%Z -> (0 <= m)%Z ->
  fst (read n self) ++ fst (read m (snd (read n self)))
  = fst (read (n + m) self).
Proof.
  intros Hn Hm.
  destruct (read_stream n self Hn) as [H1 Hrest].
  destruct (read_stream m (snd (read n self)) Hm) as [H2 _].
  destruct (read_stream (n + m) self ltac:(lia)) as [H3 _].
  rewrite H1, H2, H3, Hrest, Z2Nat.inj_add by lia.
  apply take_take_drop.
Qed.

(** [read 1] then [read 3] on "ab" and "cdef" give "a" and "bcd", and
    [read 4] gives "abcd". *)
Lemma read_then_read_witness :
  fst (read 1 ab_cdef) ++ fst (read 3 (snd (read 1 ab_cdef))) = "abcd".
Proof. exact (read_then_read 1 3 ab_cdef ltac:(lia) ltac:(lia)). Defined.

(** ** The search for the terminator *)

Lemma find_cons (c : ascii) (s : string) :
  Str.find (String c s) CRLF
  = if String.prefix CRLF (String c s) then Some 0
    else option_map S (Str.find s CRLF).
Proof.
  unfold Str.find. simpl.
  destruct (ascii_dec "013" c); [|destruct (String.index 0 CRLF s); reflexivity].
  destruct s as [|d s]; [reflexivity|].
  destruct (ascii_dec "010" d); [reflexivity|].
  destruct (String.index 0 CRLF (String d s)); reflexivity.
Qed.

Lemma prefix_cons (a b : ascii) (p s : string) :
  String.prefix (String a p) (String b s)
  = if ascii_dec a b then String.prefix p s else false.
Proof. reflexivity. Qed.

Lemma prefix_CRLF (s : string) :
  String.prefix CRLF s = true <-> exists s', s = CRLF ++ s'.
Proof.
  split.
  - destruct s as [|c s]; [discriminate|]. unfold CRLF. rewrite prefix_cons.
    destruct (ascii_dec "013" c) as [<-|]; [|discriminate].
    destruct s as [|d s]; [discriminate|]. rewrite prefix_cons.
    destruct (ascii_dec "010" d) as [<-|]; [|discriminate].
    intros _. exists s. reflexivity.
  - intros [s' ->]. destruct s'; reflexivity.
Qed.

Lemma prefix_CRLF_take (n : nat) (s : string) :
  String.prefix CRLF (Str.take n s) = true -> String.prefix CRLF s = true.
Proof.
  intros H. apply prefix_CRLF in H. destruct H as [s' H]. apply prefix_CRLF.
  exists (s' ++ Str.drop n s).
  rewrite <- (take_drop n s) at 1. rewrite H. reflexivity.
Qed.

(** Where [find] sees the terminator, the text is a piece without
    terminator, the terminator, and the rest. *)
Lemma find_some (s : string) : forall i,
  Str.find s CRLF = Some i ->
  s = Str.take i s ++ CRLF ++ Str.drop (i + 2) s /\
  Str.find (Str.take i s) CRLF = None.
Proof.
  induction s as [|c s IH]; intros i; [discriminate|].
  rewrite find_cons.
  destruct (String.prefix CRLF (String c s)) eqn:Hp.
  - intros H; injection H as <-. split; [|reflexivity].
    apply prefix_CRLF in Hp. destruct Hp as [s' ->]. reflexivity.
  - destruct (Str.find s CRLF) as [j|] eqn:Hs; [|discriminate].
    intros H; injection H as <-. destruct (IH j eq_refl) as [Hsplit Hnone].
    split.
    + simpl. f_equal. exact Hsplit.
    + change (Str.take (S j) (String c s)) with (String c (Str.take j s)).
      rewrite find_cons, Hnone.
      destruct (String.prefix CRLF (String c (Str.take j s))) eqn:Hp'; [|reflexivity].
      apply (prefix_CRLF_take (S j) (String c s)) in Hp'. congruence.
Qed.

(** A piece without terminator that is followed by the terminator ends
    where [find] stops. *)
Lemma find_after (line rest : string) :
  Str.find line CRLF = None ->
  Str.find (line ++ CRLF ++ rest) CRLF = Some (String.length line).
Proof.
  induction line as [|c line IH]; intros Hnone.
  { change ("" ++ CRLF ++ rest) with (String "013" (String "010" rest)).
    rewrite find_cons.
    assert (Hp : String.prefix CRLF (String "013" (String "010" rest)) = true)
      by (apply prefix_CRLF; exists rest; reflexivity).
    rewrite Hp. reflexivity. }
  rewrite find_cons in Hnone.
  destruct (String.prefix CRLF (String c line)) eqn:Hp; [discriminate|].
  destruct (Str.find line CRLF) eqn:Hl; [discriminate|].
  change ((String c line ++ CRLF ++ rest)) with (String c (line ++ CRLF ++ rest)).
  rewrite find_cons, IH by reflexivity.
  destruct (String.prefix CRLF (String c (line ++ CRLF ++ rest))) eqn:Hp'; [|reflexivity].
  exfalso. apply prefix_CRLF in Hp'. destruct Hp' as [s' Hs'].
  injection Hs' as Hc Hs'. subst c.
  destruct line as [|d line]; simpl in Hs'; [discriminate Hs'|].
  injection Hs' as -> _.
  assert (Hq : String.prefix CRLF (String "013" (String "010" line)) = true)
    by (apply prefix_CRLF; exists line; reflexivity).
  congruence.
Qed.

(** What a pass of the inner loop does with a buffer that holds a
    terminator. *)
Lemma search_found (line buff' : string) (sock : socket) break_ :
  Str.find line CRLF = None ->
  search (line ++ CRLF ++ buff') sock break_
  = if Str.is_empty line then StopIteration buff' sock
    else Yield line (Suspended buff' sock).
Proof.
  intros Hnone. unfold search, str_index. rewrite find_after by assumption.
  rewrite (take_append (String.length line) line) by lia.
  rewrite (take_all (String.length line) line) by lia.
  replace (Str.drop (String.length line + 2) (line ++ CRLF ++ buff')) with buff'.
  - reflexivity.
  - rewrite <- drop_drop, (drop_append (String.length line) line) by lia.
    rewrite (drop_all (String.length line) line) by lia. reflexivity.
Qed.

Lemma search_inverse (buff : string) (sock : socket) break_ :
  forall i, Str.find buff CRLF = Some i ->
  search buff sock break_
  = if Str.is_empty (Str.take i buff) then StopIteration (Str.drop (i + 2) buff) sock
    else Yield (Str.take i buff) (Suspended (Str.drop (i + 2) buff) sock).
Proof. intros i H. unfold search, str_index. rewrite H. reflexivity. Qed.

(** ** More on the line reader *)

Lemma is_empty_false (s : string) : Str.is_empty s = false <-> s <> "".
Proof. destruct s; simpl; split; congruence. Qed.

(** What a pass of the inner loop has found when it yields or returns. *)
Lemma search_yield_inv (buff : string) (sock : socket) break_ (line : string)
      (lines' : generator) :
  search buff sock break_ = Yield line lines' ->
  line <> "" /\ Str.find line CRLF = None /\
  exists buff', buff = line ++ CRLF ++ buff' /\ lines' = Suspended buff' sock.
Proof.
  destruct (Str.find buff CRLF) as [i|] eqn:Hfind.
  - rewrite (search_inverse _ _ _ i Hfind).
    destruct (Str.is_empty (Str.take i buff)) eqn:E; [discriminate|].
    intros H; injection H as <- <-.
    destruct (find_some buff i Hfind) as [Hsplit Hnone].
    split; [apply is_empty_false; assumption|]. split; [assumption|].
    exists (Str.drop (i + 2) buff). split; [assumption | reflexivity].
  - rewrite search_without_terminator by assumption. discriminate.
Qed.

Lemma search_stop_inv (buff : string) (sock : socket) break_ (value : string)
      (sock' : socket) :
  search buff sock break_ = StopIteration value sock' ->
  buff = CRLF ++ value /\ sock' = sock.
Proof.
  destruct (Str.find buff CRLF) as [i|] eqn:Hfind.
  - rewrite (search_inverse _ _ _ i Hfind).
    destruct (Str.is_empty (Str.take i buff)) eqn:E; [|discriminate].
    intros H; injection H as <- <-.
    destruct (find_some buff i Hfind) as [Hsplit _].
    apply is_empty_true in E. rewrite E in Hsplit. auto.
  - rewrite search_without_terminator by assumption. discriminate.
Qed.

(** X4: a resumed generator yields [line] exactly when its buffer is
    [line], the terminator and some rest, where [line] is not empty and
    holds no terminator; the rest is the buffer it suspends with, and the
    socket is not touched. *)
Theorem next_yields_first_line (buff : string) (sock : socket) (line : string)
        (lines' : generator) :
  next (Suspended buff sock) = Yield line lines' <->
  line <> "" /\ Str.find line CRLF = None /\
  exists buff', buff = line ++ CRLF ++ buff' /\ lines' = Suspended buff' sock.
Proof.
  unfold next. split.
  - apply search_yield_inv.
  - intros (Hline & Hnone & buff' & -> & ->).
    rewrite search_found by assumption.
    apply is_empty_false in Hline. rewrite Hline. reflexivity.
Qed.

(** X5: a resumed generator returns exactly when its buffer starts with the
    terminator, that is at an empty line; the value it returns is the buffer
    after that terminator, with nothing dropped and nothing received. *)
Theorem next_returns_remainder (buff : string) (sock : socket) (value : string)
        (sock' : socket) :
  next (Suspended buff sock) = StopIteration value sock' <->
  buff = CRLF ++ value /\ sock' = sock.
Proof.
  unfold next. split.
  - apply search_stop_inv.
  - intros [-> ->].
    exact (search_found "" value sock (receive sock) eq_refl).
Qed.

(** X6: a resumed generator raises exactly when its buffer holds no
    terminator, and then it raises the [ValueError] of [str.index]: it does
    not go back to the socket for more. *)
Theorem next_raises_without_terminator (buff : string) (sock : socket) (e : exn)
        (sock' : socket) :
  next (Suspended buff sock) = Raise e sock' <->
  Str.find buff CRLF = None /\ e = ValueError SubstringNotFound /\ sock' = sock.
Proof.
  unfold next. split.
  - destruct (Str.find buff CRLF) as [i|] eqn:Hfind.
    + rewrite (search_inverse _ _ _ i Hfind).
      destruct (Str.is_empty (Str.take i buff)); discriminate.
    + rewrite search_without_terminator by assumption.
      intros H; injection H as <- <-. auto.
  - intros (Hfind & -> & ->). apply search_without_terminator. assumption.
Qed.

(** The first call of [next] receives once; with the peer still there, it
    goes on as a generator resumed on what was received. *)
Lemma next_created (sock : socket) :
  next (Created sock)
  = if Str.is_empty (fst (recv sock)) then StopIteration "" (snd (recv sock))
    else next (Suspended (fst (recv sock)) (snd (recv sock))).
Proof.
  destruct sock as [|data rest]; simpl; [reflexivity|].
  destruct (Str.is_empty data) eqn:E; simpl; [reflexivity|].
  rewrite E. reflexivity.
Qed.

(** ** Splitting at a character *)

Lemma length_split (sep : ascii) (s : string) :
  List.length (Str.split sep s) = S (count_char sep s).
Proof.
  induction s as [|c s IH]; [reflexivity|]. simpl.
  destruct (Ascii.eqb c sep); simpl; [rewrite IH; reflexivity|].
  destruct (Str.split sep s); simpl in *; [discriminate | assumption].
Qed.

Lemma split_nonempty (sep : ascii) (s : string) : Str.split sep s <> [].
Proof.
  intros H. pose proof (length_split sep s) as Hlen. rewrite H in Hlen. discriminate.
Qed.

Lemma split_plain (sep : ascii) (s : string) :
  count_char sep s = 0 -> Str.split sep s = [s].
Proof.
  induction s as [|c s IH]; [reflexivity|]. simpl.
  destruct (Ascii.eqb c sep); [discriminate|]. simpl. intros H.
  rewrite IH by assumption. reflexivity.
Qed.

Lemma split_app (sep : ascii) (a b : string) :
  count_char sep a = 0 ->
  Str.split sep (a ++ String sep b) = a :: Str.split sep b.
Proof.
  induction a as [|c a IH]; simpl.
  - intros _. rewrite Ascii.eqb_refl. reflexivity.
  - destruct (Ascii.eqb c sep); [discriminate|]. simpl. intros H.
    rewrite IH by assumption. reflexivity.
Qed.

(** Joining the tokens of a text with the separator gives the text back,
    and no token holds the separator. *)
Lemma join_split (sep : ascii) (s : string) :
  Str.join (String sep "") (Str.split sep s) = s.
Proof.
  induction s as [|c s IH]; [reflexivity|]. simpl.
  destruct (Ascii.eqb_spec c sep) as [->|_].
  - pose proof (split_nonempty sep s) as Hne.
    destruct (Str.split sep s) as [|tok toks]; [contradiction|].
    change (Str.join (String sep "") ("" :: tok :: toks))
      with (String sep (Str.join (String sep "") (tok :: toks))).
    rewrite IH. reflexivity.
  - pose proof (split_nonempty sep s) as Hne.
    destruct (Str.split sep s) as [|tok toks]; [contradiction|].
    rewrite <- IH. destruct toks; reflexivity.
Qed.

Lemma split_tokens (sep : ascii) (s : string) :
  Forall (fun tok => count_char sep tok = 0) (Str.split sep s).
Proof.
  induction s as [|c s IH]; simpl; [repeat constructor|].
  destruct (Ascii.eqb c sep) eqn:E; [constructor; [reflexivity | assumption]|].
  destruct (Str.split sep s) as [|tok toks];
    [repeat constructor; simpl; rewrite E; reflexivity|].
  inversion IH; subst. constructor; [|assumption]. simpl. rewrite E. assumption.
Qed.

(** ** More on the request line *)

(** X7: a request line is accepted exactly when it holds two spaces; empty
    tokens count, so that a line of two spaces alone is accepted too. *)
Theorem request_line_two_spaces (request_line : string) :
  (exists method path, split_request_line request_line = inr (method, path)) <->
  count_char " " request_line = 2.
Proof.
  pose proof (length_split " " request_line) as Hlen. split.
  - intros (m & p & H). apply split_request_line_ok in H. destruct H as [v H].
    rewrite H in Hlen. simpl in Hlen. lia.
  - intros H. rewrite H in Hlen.
    destruct (Str.split " " request_line) as [|a [|b [|c [|d toks]]]] eqn:E;
      try discriminate.
    exists a, b. apply split_request_line_ok. exists c. assumption.
Qed.

(** X8: the method and the path that the parser takes from a request line
    are its first two fields: the line is the method, a space, the path, a
    space and a third field, none of which holds a space; and every line of
    that form is split in that way. *)
Theorem request_line_fields (request_line method path : string) :
  split_request_line request_line = inr (method, path) <->
  exists version,
    request_line = method ++ " " ++ path ++ " " ++ version /\
    count_char " " method = 0 /\ count_char " " path = 0 /\
    count_char " " version = 0.
Proof.
  rewrite split_request_line_ok. split.
  - intros [v H]. exists v.
    pose proof (join_split " " request_line) as Hjoin.
    pose proof (split_tokens " " request_line) as Htok.
    rewrite H in Hjoin, Htok.
    inversion Htok as [|? ? Hm Ht1]. inversion Ht1 as [|? ? Hp Ht2].
    inversion Ht2 as [|? ? Hv _].
    split; [symmetry; exact Hjoin | auto].
  - intros (v & -> & Hm & Hp & Hv). exists v.
    change (method ++ " " ++ path ++ " " ++ v)
      with (method ++ String " " (path ++ String " " v)).
    rewrite !split_app, split_plain by assumption. reflexivity.
Qed.

(** ** A request received in one piece *)

(** One turn of the loop over the lines. *)
Lemma read_headers_step (lines : generator) (headers : Headers.t) :
  read_headers lines headers
  = match next lines with
    | StopIteration value sock => inr (headers, value, sock)
    | Raise e _ => inl e
    | Yield line lines' =>
        match add_header_line line headers with
        | inl e => inl e
        | inr headers' => read_headers lines' headers'
        end
    end.
Proof.
  funelim (read_headers lines headers);
    match goal with Hn : next _ = _ |- _ => rewrite Hn end;
    try match goal with Ha : add_header_line _ _ = _ |- _ => rewrite Ha end;
    congruence.
Qed.

Lemma add_header_line_header (line : string) (headers : Headers.t) :
  add_header_line line headers = inr (headers ++ [header_of_line line])%list.
Proof.
  unfold add_header_line, header_of_line, Headers.add.
  destruct (Str.partition ":" line) as [[name sep] value]. reflexivity.
Qed.

(** The header lines that wait in the buffer, up to the empty line, all
    become headers, in their order; what follows the empty line is
    returned. *)
Lemma read_headers_lines (lines : list string) :
  forall (headers : Headers.t) (rest : string) (sock : socket),
    Forall (fun line => line <> "" /\ Str.find line CRLF = None) lines ->
    read_headers (Suspended (lines_text lines ++ CRLF ++ rest) sock) headers
    = inr ((headers ++ List.map header_of_line lines)%list, rest, sock).
Proof.
  induction lines as [|line lines IH]; intros headers rest sock Hlines;
    rewrite read_headers_step; unfold next.
  - change (lines_text [] ++ CRLF ++ rest) with ("" ++ CRLF ++ rest).
    rewrite search_found by reflexivity. simpl. rewrite app_nil_r. reflexivity.
  - inversion Hlines as [|? ? [Hne Hnone] Hrest]; subst.
    change (lines_text (line :: lines)) with (line ++ CRLF ++ lines_text lines).
    rewrite !append_assoc. rewrite search_found by assumption.
    apply is_empty_false in Hne. rewrite Hne.
    rewrite add_header_line_header, IH by assumption.
    simpl. rewrite <- app_assoc. reflexivity.
Qed.

(** X9: a request that arrives in one piece is parsed without loss.  When
    the request line has three fields and no terminator in it, and the
    header lines are not empty and hold no terminator, [from_socket] returns
    the method in upper case, the path as it is, one header for each line in
    the order of the lines, and a body reader whose buffer is exactly what
    follows the empty line, on the socket as the one [recv] left it. *)
Theorem from_socket_one_chunk (request_line method path version : string)
        (lines : list string) (rest : string) (later : socket) :
  Str.split " " request_line = [method; path; version] ->
  Str.find request_line CRLF = None ->
  Forall (fun line => line <> "" /\ Str.find line CRLF = None) lines ->
  from_socket (wire request_line lines rest :: later)
  = inr {| method := Str.upper method;
           path := path;
           headers := List.map header_of_line lines;
           body := {| _sock := later; _buff := rest |} |}.
Proof.
  intros Hsplit Hnone Hlines.
  assert (Hne : Str.is_empty request_line = false).
  { destruct request_line; [discriminate Hsplit | reflexivity]. }
  assert (Hwire : Str.is_empty (wire request_line lines rest) = false).
  { unfold wire. destruct request_line; [discriminate Hne | reflexivity]. }
  unfold from_socket, iter_lines, next, receive. rewrite Hwire.
  change ("" ++ wire request_line lines rest) with (wire request_line lines rest).
  unfold wire. rewrite search_found by assumption. rewrite Hne.
  assert (Hline : split_request_line request_line = inr (method, path)).
  { apply split_request_line_ok. exists version. assumption. }
  rewrite Hline, read_headers_lines by assumption. reflexivity.
Qed.

(** The request "POST /form" with one header and the body "abc" after the
    empty line. *)
Lemma from_socket_one_chunk_witness :
  from_socket [post_request] = inr post_parsed.
Proof.
  apply (from_socket_one_chunk
           "POST /form HTTP/1.1" "POST" "/form" "HTTP/1.1"
           ["Content-Length: 3"] "abc" []).
  - reflexivity.
  - reflexivity.
  - repeat constructor. discriminate.
Defined.

(** X10: a header line is cut at its first colon: with a name that holds
    no colon, the header gets that name and the text after the colon
    without its leading white space, further colons included. *)
Theorem add_header_line_field (name value : string) (headers : Headers.t) :
  count_char ":" name = 0 ->
  add_header_line (name ++ ":" ++ value) headers
  = inr (Headers.add name (Str.lstrip value) headers).
Proof.
  intros Hname. rewrite add_header_line_accepts.
  assert (Hpart : Str.partition ":" (name ++ ":" ++ value) = (name, ":", value)).
  { induction name as [|c name IH]; simpl in *; [reflexivity|].
    destruct (Ascii.eqb c ":"); [discriminate|]. simpl in Hname.
    rewrite IH by assumption. reflexivity. }
  rewrite Hpart. reflexivity.
Qed.

(** The line "Host:  a:b" gives the header host with the value "a:b". *)
Lemma add_header_line_field_witness :
  add_header_line "Host:  a:b" Headers.empty = inr [("host", "a:b")].
Proof. exact (add_header_line_field "Host" "  a:b" Headers.empty eq_refl). Defined.

(** ** Which requests parse *)

Lemma read_headers_inv (lines : generator) (headers : Headers.t) :
  forall buff sock headers' value sock',
    lines = Suspended buff sock ->
    read_headers lines headers = inr (headers', value, sock') ->
    exists header_lines,
      buff = lines_text header_lines ++ CRLF ++ value /\
      headers' = (headers ++ List.map header_of_line header_lines)%list /\
      Forall (fun line => line <> "" /\ Str.find line CRLF = None) header_lines /\
      sock' = sock.
Proof.
  funelim (read_headers lines headers); intros bf sk hs v s' -> Hread;
    unfold next in *.
  - injection Hread as <- <- <-.
    match goal with Hn : search _ _ _ = _ |- _ =>
      destruct (search_stop_inv _ _ _ _ _ Hn) as [Hbuff Hsock] end.
    exists []. rewrite app_nil_r. repeat split; auto.
  - discriminate.
  - discriminate.
  - match goal with Hn : search _ _ _ = Yield _ _ |- _ =>
      destruct (search_yield_inv _ _ _ _ _ Hn) as (Hne & Hnone & buff' & Hbuff & Hg) end.
    match goal with Ha : add_header_line _ _ = inr _ |- _ =>
      pose proof Ha as Hadd; rewrite add_header_line_header in Hadd end.
    injection Hadd as Hadd.
    match goal with IH : forall _ _ _ _ _, _ -> _ -> _ |- _ =>
      destruct (IH buff' sk hs v s' Hg Hread)
        as (ls & Hb' & Hhs & Hls & Hs') end.
    exists (line :: ls). subst. simpl. rewrite <- app_assoc, !append_assoc.
    repeat split; auto.
Qed.

(** A parse that succeeds, read backwards. *)
Lemma from_socket_inv (sock : socket) (request : Request) :
  from_socket sock = inr request ->
  exists request_line method_ version lines later,
    sock = wire request_line lines (_buff (body request)) :: later /\
    Str.split " " request_line = [method_; path request; version] /\
    Str.find request_line CRLF = None /\
    Forall (fun line => line <> "" /\ Str.find line CRLF = None) lines /\
    method request = Str.upper method_ /\
    headers request = List.map header_of_line lines /\
    _sock (body request) = later.
Proof.
  unfold from_socket, iter_lines. rewrite next_created.
  destruct sock as [|data later]; [discriminate|]. simpl recv.
  destruct (Str.is_empty data) eqn:Hdata; [discriminate|]. simpl fst. simpl snd.
  rewrite Hdata. unfold next.
  destruct (search data later (receive later)) as [rl g|v s|e s] eqn:Hsearch;
    try discriminate.
  apply search_yield_inv in Hsearch.
  destruct Hsearch as (Hne & Hnone & buff' & -> & ->).
  destruct (split_request_line rl) as [e|[m p]] eqn:Hline; [discriminate|].
  apply split_request_line_ok in Hline. destruct Hline as [v Hsplit].
  destruct (read_headers (Suspended buff' later) Headers.empty)
    as [e|[[hs buff] s]] eqn:Hread; [discriminate|].
  destruct (read_headers_inv _ _ buff' later hs buff s eq_refl Hread)
    as (ls & -> & -> & Hls & ->).
  intros H; injection H as <-. simpl.
  exists rl, m, v, ls, later. unfold wire. repeat split; auto.
Qed.

(** X11: the requests that [from_socket] accepts are those of X9 and no
    others: when it returns a request, the first piece received is a
    request line with three fields, header lines that are not empty, the
    empty line and the buffer of the body reader, and the request is the
    one read off these; nothing after the first piece has been received. *)
Theorem from_socket_parsed_form (sock : socket) (request : Request) :
  from_socket sock = inr request ->
  exists request_line method_ version lines later,
    sock = wire request_line lines (_buff (body request)) :: later /\
    Str.split " " request_line = [method_; path request; version] /\
    Str.find request_line CRLF = None /\
    Forall (fun line => line <> "" /\ Str.find line CRLF = None) lines /\
    method request = Str.upper method_ /\
    headers request = List.map header_of_line lines /\
    _sock (body request) = later.
Proof. apply from_socket_inv. Qed.

(** The request of the example is of that form. *)
Lemma from_socket_parsed_form_witness :
  exists request_line method_ version lines later,
    [post_request] = wire request_line lines "abc" :: later /\
    Str.split " " request_line = [method_; "/form"; version] /\
    Str.find request_line CRLF = None /\
    Forall (fun line => line <> "" /\ Str.find line CRLF = None) lines /\
    "POST" = Str.upper method_ /\
    [("content-length", "3")] = List.map header_of_line lines /\
    [] = later.
Proof. exact (from_socket_parsed_form [post_request] post_parsed eq_refl). Defined.

(** X12: [from_socket] reports that the request line is missing exactly
    when the first [recv] returns nothing, the peer having closed, or what
    it returns starts with the terminator, an empty first line. *)
Theorem request_line_missing (sock : socket) :
  from_socket sock = inl (ValueError RequestLineMissing) <->
  Str.is_empty (fst (recv sock)) = true \/
  Str.startswith (fst (recv sock)) CRLF = true.
Proof.
  unfold from_socket, iter_lines. rewrite next_created.
  destruct (Str.is_empty (fst (recv sock))) eqn:Hdata; [split; auto|].
  unfold next, Str.startswith.
  set (data := fst (recv sock)) in *. set (later := snd (recv sock)).
  split.
  - destruct (search data later (receive later)) as [rl g|v s|e s] eqn:Hsearch.
    + destruct (split_request_line rl) as [e|[m p]] eqn:Hline.
      * apply split_request_line_raise in Hline. destruct Hline as [-> _].
        discriminate.
      * destruct (read_headers g Headers.empty) as [e|[[hs buff] s]] eqn:Hread;
          [|discriminate].
        apply read_headers_raise in Hread. subst e. discriminate.
    + intros _. apply search_stop_inv in Hsearch. destruct Hsearch as [-> _].
      right. apply prefix_CRLF. eauto.
    + apply search_raise in Hsearch; [subst e; discriminate|].
      intros b. apply receive_raise.
  - intros [H|H]; [discriminate|].
    apply prefix_CRLF in H. destruct H as [s' Hs']. rewrite Hs'.
    change (CRLF ++ s') with ("" ++ CRLF ++ s').
    rewrite (search_found "" s' later (receive later) eq_refl). reflexivity.
Qed.

(** ** The request that comes out *)

Lemma upper_char_idempotent (c : ascii) :
  Str.upper_char (Str.upper_char c) = Str.upper_char c.
Proof.
  destruct c as [[] [] [] [] [] [] [] []]; reflexivity.
Qed.

Lemma upper_idempotent (s : string) : Str.upper (Str.upper s) = Str.upper s.
Proof.
  induction s as [|c s IH]; [reflexivity|].
  change (Str.upper (String c s)) with (String (Str.upper_char c) (Str.upper s)).
  change (Str.upper (String (Str.upper_char c) (Str.upper s)))
    with (String (Str.upper_char (Str.upper_char c)) (Str.upper (Str.upper s))).
  rewrite upper_char_idempotent, IH. reflexivity.
Qed.

Lemma lstrip_by_idempotent (p : ascii -> bool) (s : string) :
  Str.lstrip_by p (Str.lstrip_by p s) = Str.lstrip_by p s.
Proof.
  induction s as [|c s IH]; [reflexivity|]. simpl.
  destruct (p c) eqn:E; [assumption|]. simpl. rewrite E. reflexivity.
Qed.

Lemma header_of_line_stripped (line : string) :
  Str.lstrip (snd (header_of_line line)) = snd (header_of_line line).
Proof.
  unfold header_of_line. destruct (Str.partition ":" line) as [[name sep] value].
  apply lstrip_by_idempotent.
Qed.

(** The steps of a parse that succeeds. *)
Lemma from_socket_steps (sock : socket) (request : Request) :
  from_socket sock = inr request ->
  exists data later request_line lines method_ version header_lines,
    sock = data :: later /\
    search data later (receive later) = Yield request_line lines /\
    Str.split " " request_line = [method_; path request; version] /\
    method request = Str.upper method_ /\
    headers request = List.map header_of_line header_lines.
Proof.
  unfold from_socket, iter_lines. rewrite next_created.
  destruct sock as [|data later]; [discriminate|]. simpl recv.
  destruct (Str.is_empty data) eqn:Hdata; [discriminate|]. simpl fst. simpl snd.
  rewrite Hdata. unfold next.
  destruct (search data later (receive later)) as [rl g|v s|e s] eqn:Hsearch;
    try discriminate.
  destruct (search_yield_inv _ _ _ _ _ Hsearch) as (_ & _ & buff' & _ & ->).
  destruct (split_request_line rl) as [e|[m p]] eqn:Hline; [discriminate|].
  apply split_request_line_ok in Hline. destruct Hline as [v Hsplit].
  destruct (read_headers (Suspended buff' later) Headers.empty)
    as [e|[[hs buff] s]] eqn:Hread; [discriminate|].
  destruct (read_headers_inv _ _ buff' later hs buff s eq_refl Hread)
    as (ls & _ & -> & _ & _).
  intros H; injection H as <-. simpl.
  exists data, later, rl, (Suspended buff' later), m, v, ls. repeat split; auto.
Qed.

(** X13: every request that [from_socket] returns is normalised: its method
    has no lower-case letter left, its path holds no space, and no header
    value starts with white space. *)
Theorem parsed_request_normalised (sock : socket) (request : Request) :
  from_socket sock = inr request ->
  Str.upper (method request) = method request /\
  count_char " " (path request) = 0 /\
  Forall (fun header => Str.lstrip (snd header) = snd header) (headers request).
Proof.
  intros H. apply from_socket_steps in H.
  destruct H as (data & later & rl & g & m & v & ls & _ & _ & Hsplit & Hm & Hhs).
  split; [rewrite Hm; apply upper_idempotent|]. split.
  - pose proof (split_tokens " " rl) as Htok. rewrite Hsplit in Htok.
    inversion Htok as [|? ? _ Ht1]. inversion Ht1 as [|? ? Hp _]. exact Hp.
  - rewrite Hhs. apply Forall_forall. intros header Hin.
    apply in_map_iff in Hin. destruct Hin as (line & <- & _).
    apply header_of_line_stripped.
Qed.

(** The request "get /a HTTP/1.1" with the header line "X:   y". *)
Lemma parsed_request_normalised_witness :
  Str.upper "GET" = "GET" /\ count_char " " "/a" = 0 /\
  Forall (fun header => Str.lstrip (snd header) = snd header) [("x", "y")].
Proof.
  exact (parsed_request_normalised
           ["get /a HTTP/1.1" ++ CRLF ++ "X:   y" ++ CRLF ++ CRLF]
           {| method := "GET"; path := "/a"; headers := [("x", "y")];
              body := {| _sock := []; _buff := "" |} |}
           eq_refl).
Defined.

(** ** More on the connection handler *)

Section MoreServerProperties.

Variable open_ : string -> result string.
Variable guess_type : string -> option string * option string.

(** What [serve_file] does inside the root, by the result of [open]. *)
Lemma serve_file_outcome (path : string) :
  let abspath := resolve (if String.eqb path "/" then "/index.html" else path) in
  Str.startswith abspath SERVER_ROOT = true ->
  match open_ abspath with
  | inr f =>
      exists response,
        Response.status response = "200 OK" /\ Response.body response = Some f /\
        serve_file open_ guess_type path = ([Open abspath; Send response], inr tt)
  | inl FileNotFoundError =>
      serve_file open_ guess_type path = ([Open abspath; Send not_found], inr tt)
  | inl e => serve_file open_ guess_type path = ([Open abspath], inl e)
  end.
Proof.
  intros abspath Hroot. unfold serve_file. fold abspath. rewrite Hroot.
  simpl negb. cbv iota. unfold try_except, bind, emit, lift, send.
  destruct (open_ abspath) as [e|f]; simpl.
  - destruct e; reflexivity.
  - destruct (guess_type abspath) as [[ct|] [enc|]]; simpl;
      eexists; (split; [|split; [|reflexivity]]); reflexivity.
Qed.

(** The handler of a parsed request: some events of the preamble, the
    answer, and what the two enclosing statements add. *)
Lemma handle_client_answer (client_sock : socket) (request : Request) :
  from_socket client_sock = inr request ->
  exists before,
    Forall preamble before /\
    handle_client open_ guess_type client_sock
    = with_socket (try_except ((before ++ fst (answer open_ guess_type request))%list,
                               snd (answer open_ guess_type request))
                              is_Exception (send bad_request)).
Proof.
  intros Hparse. rewrite (handle_client_parsed _ _ _ _ Hparse).
  pose proof (handle_request_parts open_ guess_type request) as Hparts.
  cbv zeta in Hparts. rewrite Hparts. clear Hparts. fold (answer open_ guess_type request).
  destruct (answer open_ guess_type request) as [t r]. simpl fst. simpl snd.
  eexists. split; [|rewrite app_assoc; reflexivity].
  apply Forall_app. unfold preamble. split.
  - destruct (Str.contains _ _); auto.
  - destruct (_ =? _)%Z; eauto.
Qed.

(** The answer either is complete, with one response that is neither the
    400 one nor the interim one, or is cut short by the exception of
    [open]. *)
Lemma answer_cases (request : Request) :
  (exists e t, answer open_ guess_type request = (t, inl e) /\
               open_fails open_ request e /\
               List.filter is_final t = [] /\ ~ In Close t /\
               ~ In (Send bad_request) t /\
               t = [Open (resolve (if String.eqb (path request) "/"
                                   then "/index.html" else path request))]) \/
  (exists t, answer open_ guess_type request = (t, inr tt) /\
             (forall e, ~ open_fails open_ request e) /\
             List.length (List.filter is_final t) = 1 /\ ~ In Close t /\
             ~ In (Send bad_request) t /\ ~ In (Send continue) t).
Proof.
  unfold answer, open_fails.
  destruct (String.eqb_spec (method request) "GET") as [Hget|Hother]; simpl negb;
    cbv iota.
  - pose proof (serve_file_cases open_ guess_type (path request)) as Hcases.
    pose proof (serve_file_outcome (path request)) as Hout.
    cbv zeta in Hcases, Hout |- *.
    set (abspath := resolve (if String.eqb (path request) "/" then "/index.html"
                             else path request)) in *.
    destruct (Str.startswith abspath SERVER_ROOT) eqn:Hroot.
    + specialize (Hout eq_refl).
      destruct (open_ abspath) as [e|f] eqn:Hopen.
      * destruct e; rewrite Hout;
          try (left; eexists _, _; split; [reflexivity|]; simpl;
               repeat split; auto; try discriminate;
               intros [H|[]]; discriminate).
        right. eexists. split; [reflexivity|]. simpl. repeat split; auto;
          try (intros [H|[H|[]]]; discriminate).
        intros e (_ & _ & He & Hne). injection He as <-. contradiction.
      * destruct Hout as (response & Hstatus & _ & ->).
        right. eexists. split; [reflexivity|]. simpl. rewrite Hstatus. simpl.
        repeat split; auto;
          try (intros [H|[H|[]]]; try discriminate;
               injection H as H; subst response; simpl in Hstatus;
               discriminate Hstatus).
        intros e (_ & _ & He & _). discriminate.
    + destruct Hcases as [[_ ->]|[Hin _]]; [|discriminate].
      right. eexists. split; [reflexivity|]. simpl. repeat split; auto;
        try (intros [H|[]]; discriminate).
      intros e (_ & Hin & _). discriminate.
  - right. eexists. split; [reflexivity|]. simpl. repeat split; auto;
      try (intros [H|[]]; discriminate).
    intros e (Hget & _). contradiction.
Qed.

(** X16: when [open] fails for a [GET] request, for a reason other than a
    missing file, the exception leaves [serve_file] and the handler answers
    "400 Bad Request": after the preamble the events are the [open], that
    response and the [Close]. *)
Theorem open_failure_gets_400 (client_sock : socket) (request : Request) (e : exn) :
  from_socket client_sock = inr request ->
  open_fails open_ request e ->
  exists before,
    handle_client open_ guess_type client_sock
    = ((before
        ++ [Open (resolve (if String.eqb (path request) "/" then "/index.html"
                           else path request));
            Send bad_request; Close])%list, inr tt) /\
    Forall preamble before.
Proof.
  intros Hparse Hfails.
  destruct (handle_client_answer _ _ Hparse) as (before & Hbefore & ->).
  exists before. split; [|assumption].
  destruct (answer_cases request)
    as [(e' & t & -> & _ & _ & _ & _ & ->)|(t & _ & Hnot & _)].
  - simpl. rewrite <- !app_assoc. reflexivity.
  - exfalso. exact (Hnot e Hfails).
Qed.

End MoreServerProperties.

(** The request for the index, where [open] fails. *)
Lemma open_failure_gets_400_witness :
  exists before,
    handle_client unreadable no_types [index_request]
    = ((before ++ [Open "www/index.html"; Send bad_request; Close])%list, inr tt) /\
    Forall preamble before.
Proof.
  apply (open_failure_gets_400
           unreadable no_types [index_request]
           {| method := "GET"; path := "/index.html"; headers := [("host", "x")];
              body := {| _sock := []; _buff := "" |} |}
           OSError eq_refl).
  repeat split. discriminate.
Defined.

(** ** Paths *)

Lemma plain_inv (comp : string) :
  plain comp = true ->
  String.eqb comp "" = false /\ String.eqb comp "." = false /\
  String.eqb comp ".." = false /\ count_char "/" comp = 0.
Proof.
  unfold plain. intros H.
  apply andb_prop in H. destruct H as [H H4].
  apply andb_prop in H. destruct H as [H H3].
  apply andb_prop in H. destruct H as [H1 H2].
  apply negb_true_iff in H1, H2, H3. apply Nat.eqb_eq in H4. auto.
Qed.

Lemma plain_head (comp : string) :
  plain comp = true ->
  exists c comp', comp = String c comp' /\ c <> "/"%char.
Proof.
  intros H. apply plain_inv in H. destruct H as (Hne & _ & _ & Hcount).
  destruct comp as [|c comp']; [discriminate|]. exists c, comp'. split; [reflexivity|].
  simpl in Hcount. destruct (Ascii.eqb_spec c "/"); [discriminate | assumption].
Qed.

Lemma split_join (sep : ascii) (comps : list string) :
  Forall (fun comp => count_char sep comp = 0) comps -> comps <> [] ->
  Str.split sep (Str.join (String sep "") comps) = comps.
Proof.
  induction comps as [|comp comps IH]; intros Hall Hne; [contradiction|].
  inversion Hall as [|? ? Hcomp Hrest]; subst.
  destruct comps as [|comp2 comps]; [apply split_plain; assumption|].
  change (Str.join (String sep "") (comp :: comp2 :: comps))
    with (comp ++ String sep (Str.join (String sep "") (comp2 :: comps))).
  rewrite split_app by assumption. rewrite IH by (assumption || discriminate).
  reflexivity.
Qed.

Lemma collapse_plain (n : nat) (comps : list string) : forall new_comps,
  Forall (fun comp => plain comp = true) comps ->
  posixpath.collapse n comps new_comps = (new_comps ++ comps)%list.
Proof.
  induction comps as [|comp comps IH]; intros new_comps Hall; simpl.
  - rewrite app_nil_r. reflexivity.
  - inversion Hall as [|? ? Hcomp Hrest]; subst.
    apply plain_inv in Hcomp. destruct Hcomp as (H1 & H2 & H3 & _).
    rewrite H1, H2, H3. simpl. rewrite IH by assumption.
    rewrite <- app_assoc. reflexivity.
Qed.

Lemma plain_no_slash (comps : list string) :
  Forall (fun comp => plain comp = true) comps ->
  Forall (fun comp => count_char "/" comp = 0) comps.
Proof.
  apply Forall_impl. intros comp H. apply plain_inv in H. tauto.
Qed.

Lemma join_head (comp : string) (comps : list string) :
  exists tail, Str.join "/" (comp :: comps) = comp ++ tail.
Proof.
  destruct comps as [|comp2 comps].
  - exists "". simpl. rewrite append_empty_r. reflexivity.
  - exists ("/" ++ Str.join "/" (comp2 :: comps)). reflexivity.
Qed.

Lemma prefix_append (p s x : string) :
  String.prefix p s = true -> String.prefix p (s ++ x) = true.
Proof.
  revert s; induction p as [|a p IH]; intros s.
  - intros _. destruct (s ++ x); reflexivity.
  - destruct s as [|b s]; [discriminate|].
    change (String b s ++ x) with (String b (s ++ x)). rewrite !prefix_cons.
    destruct (ascii_dec a b); [apply IH | discriminate].
Qed.

(** [normpath] on a relative path, from what its loop leaves. *)
Lemma normpath_relative (path : string) (comps : list string) :
  Str.is_empty path = false ->
  Str.startswith path "/" = false ->
  posixpath.collapse 0 (Str.split "/" path) [] = comps ->
  Str.is_empty (Str.join "/" comps) = false ->
  posixpath.normpath path = Str.join "/" comps.
Proof.
  intros Hempty Hstart Hcollapse Hjoin. unfold posixpath.normpath.
  rewrite Hempty, Hstart. cbv zeta. rewrite Hcollapse.
  change (posixpath.slashes 0 ++ Str.join "/" comps) with (Str.join "/" comps).
  rewrite Hjoin. reflexivity.
Qed.

(** The normal form of a path below the root whose components need no
    normalising, after an optional step out of the root. *)
Lemma normpath_under_root (comp : string) (comps : list string) :
  Forall (fun comp => plain comp = true) (comp :: comps) ->
  posixpath.normpath ("www/" ++ Str.join "/" (comp :: comps))
  = Str.join "/" ("www" :: comp :: comps) /\
  posixpath.normpath ("www/../" ++ Str.join "/" (comp :: comps))
  = Str.join "/" (comp :: comps).
Proof.
  intros Hall. pose proof (plain_no_slash _ Hall) as Hslash.
  assert (Hne : Str.is_empty (Str.join "/" (comp :: comps)) = false).
  { inversion Hall as [|? ? Hcomp _]; subst. apply plain_head in Hcomp.
    destruct Hcomp as (c & comp' & -> & _).
    destruct (join_head (String c comp') comps) as [tail ->]. reflexivity. }
  split.
  - apply normpath_relative; try reflexivity.
    change ("www/" ++ Str.join "/" (comp :: comps))
      with ("www" ++ String "/" (Str.join "/" (comp :: comps))).
    rewrite split_app by reflexivity.
    rewrite split_join by (assumption || discriminate).
    apply (collapse_plain 0 ("www" :: comp :: comps) []).
    constructor; [reflexivity | assumption].
  - apply normpath_relative; try reflexivity; [|assumption].
    change ("www/../" ++ Str.join "/" (comp :: comps))
      with ("www" ++ String "/" (".." ++ String "/" (Str.join "/" (comp :: comps)))).
    rewrite !split_app by reflexivity.
    rewrite split_join by (assumption || discriminate).
    change (posixpath.collapse 0 ("www" :: ".." :: comp :: comps) [])
      with (posixpath.collapse 0 (comp :: comps) []).
    apply (collapse_plain 0 (comp :: comps) []). assumption.
Qed.

Lemma lstrip_char_other (c : ascii) (s : string) :
  c <> "/"%char -> Str.lstrip_char "/" (String c s) = String c s.
Proof.
  intros Hc. unfold Str.lstrip_char. cbn [Str.lstrip_by].
  destruct (Ascii.eqb_spec "/" c) as [Heq|_]; [congruence | reflexivity].
Qed.

Lemma join_relative (c : ascii) (s : string) :
  c <> "/"%char -> posixpath.join SERVER_ROOT (String c s) = "www/" ++ String c s.
Proof.
  intros Hc. unfold posixpath.join, Str.startswith. rewrite prefix_cons.
  destruct (ascii_dec "/" c) as [Heq|_]; [congruence | reflexivity].
Qed.

(** What [resolve] gives to [normpath] for such paths. *)
Lemma resolve_under_root (comp : string) (comps : list string) :
  plain comp = true ->
  resolve ("/" ++ Str.join "/" (comp :: comps))
  = posixpath.normpath ("www/" ++ Str.join "/" (comp :: comps)) /\
  resolve ("/../" ++ Str.join "/" (comp :: comps))
  = posixpath.normpath ("www/../" ++ Str.join "/" (comp :: comps)).
Proof.
  intros Hcomp. apply plain_head in Hcomp. destruct Hcomp as (c & comp' & -> & Hc).
  destruct (join_head (String c comp') comps) as [tail ->].
  change (String c comp' ++ tail) with (String c (comp' ++ tail)).
  split.
  - unfold resolve.
    change (Str.lstrip_char "/" ("/" ++ String c (comp' ++ tail)))
      with (Str.lstrip_char "/" (String c (comp' ++ tail))).
    rewrite lstrip_char_other, join_relative by assumption. reflexivity.
  - reflexivity.
Qed.

Section PathProperties.

Variable open_ : string -> result string.
Variable guess_type : string -> option string * option string.

Lemma serve_file_opened (path abspath : string) :
  String.eqb path "/" = false ->
  resolve path = abspath ->
  Str.startswith abspath SERVER_ROOT = true ->
  opened (fst (serve_file open_ guess_type path)) = [abspath].
Proof.
  intros Hpath Hresolve Hroot.
  pose proof (serve_file_cases open_ guess_type path) as Hcases.
  cbv zeta in Hcases. rewrite Hpath, Hresolve in Hcases.
  destruct Hcases as [[Hout _]|[_ [(response & _ & ->)|(e & ->)]]];
    [congruence | reflexivity | reflexivity].
Qed.

(** X17: a request path made of plain components, none of them empty, "."
    or "..", is served from the same path under "www": that is the path
    [serve_file] resolves it to, and the one file it opens. *)
Theorem serve_file_plain_path (comps : list string) :
  Forall (fun comp => plain comp = true) comps -> comps <> [] ->
  resolve ("/" ++ Str.join "/" comps) = Str.join "/" ("www" :: comps) /\
  opened (fst (serve_file open_ guess_type ("/" ++ Str.join "/" comps)))
  = [Str.join "/" ("www" :: comps)].
Proof.
  intros Hall Hne. destruct comps as [|comp comps]; [contradiction|].
  assert (Hcomp : plain comp = true) by (inversion Hall; assumption).
  assert (Hresolve : resolve ("/" ++ Str.join "/" (comp :: comps))
                     = Str.join "/" ("www" :: comp :: comps)).
  { rewrite (proj1 (resolve_under_root comp comps Hcomp)).
    apply normpath_under_root. assumption. }
  split; [assumption|].
  apply serve_file_opened; [|assumption|reflexivity].
  destruct (plain_head comp Hcomp) as (c & comp' & -> & _).
  destruct (join_head (String c comp') comps) as [tail ->]. reflexivity.
Qed.

(** X18: the root is checked on the characters of the path, not on its
    components: a request path that steps out of "www" with ".." into a
    directory whose name starts with "www" resolves to a path outside the
    root, and [serve_file] opens it. *)
Theorem serve_file_leaves_root (comp : string) (comps : list string) :
  Forall (fun comp => plain comp = true) (comp :: comps) ->
  Str.startswith comp SERVER_ROOT = true ->
  resolve ("/../" ++ Str.join "/" (comp :: comps)) = Str.join "/" (comp :: comps) /\
  opened (fst (serve_file open_ guess_type ("/../" ++ Str.join "/" (comp :: comps))))
  = [Str.join "/" (comp :: comps)].
Proof.
  intros Hall Hroot.
  assert (Hcomp : plain comp = true) by (inversion Hall; assumption).
  assert (Hresolve : resolve ("/../" ++ Str.join "/" (comp :: comps))
                     = Str.join "/" (comp :: comps)).
  { rewrite (proj2 (resolve_under_root comp comps Hcomp)).
    apply normpath_under_root. assumption. }
  split; [assumption|].
  apply serve_file_opened; [reflexivity | assumption |].
  destruct (join_head comp comps) as [tail ->].
  apply prefix_append. exact Hroot.
Qed.

End PathProperties.

(** The path "/css/site.css" is served from "www/css/site.css". *)
Lemma serve_file_plain_path_witness :
  resolve "/css/site.css" = "www/css/site.css" /\
  opened (fst (serve_file no_files no_types "/css/site.css")) = ["www/css/site.css"].
Proof.
  apply (serve_file_plain_path no_files no_types ["css"; "site.css"]).
  - repeat constructor.
  - discriminate.
Defined.

(** The path "/../www2/secret" is served from "www2/secret", a sibling of
    the root. *)
Lemma serve_file_leaves_root_witness :
  resolve "/../www2/secret" = "www2/secret" /\
  opened (fst (serve_file no_files no_types "/../www2/secret")) = ["www2/secret"].
Proof.
  apply (serve_file_leaves_root no_files no_types "www2" ["secret"]).
  - repeat constructor.
  - reflexivity.
Defined.

(** ** From the headers to the body *)

(** X19: the body reader of a parsed request goes on exactly where the
    headers ended: the stream of the connection is the request line, the
    header lines and the empty line, followed by what the body reader holds
    and will receive; so [read n] returns the [n] units that follow the
    empty line. *)
Theorem body_follows_headers (sock : socket) (request : Request) (n : Z) :
  from_socket sock = inr request ->
  (0 <= n)%Z ->
  exists request_line lines,
    let head := request_line ++ CRLF ++ lines_text lines ++ CRLF in
    pending sock
    = head ++ _buff (body request) ++ pending (_sock (body request)) /\
    fst (read n (body request))
    = Str.take (Z.to_nat n) (Str.drop (String.length head) (pending sock)).
Proof.
  intros Hparse Hn.
  destruct (from_socket_inv sock request Hparse)
    as (rl & m & v & ls & later & -> & Hsplit & _ & _ & _ & _ & Hlater).
  exists rl, ls. cbv zeta.
  assert (Hwire : Str.is_empty (wire rl ls (_buff (body request))) = false).
  { unfold wire. destruct rl; [discriminate Hsplit | reflexivity]. }
  assert (Hpending :
            pending (wire rl ls (_buff (body request)) :: later)
            = (rl ++ CRLF ++ lines_text ls ++ CRLF)
                ++ _buff (body request) ++ pending (_sock (body request))).
  { simpl pending. rewrite Hwire, Hlater. unfold wire.
    rewrite !append_assoc. reflexivity. }
  split; [exact Hpending|].
  rewrite Hpending, drop_append, drop_all by lia.
  apply (proj1 (read_stream n (body request) Hn)).
Qed.

(** The request "POST /form" with the body "abc": [read 2] returns "ab". *)
Lemma body_follows_headers_witness :
  exists request_line lines,
    pending [post_request]
    = (request_line ++ CRLF ++ lines_text lines ++ CRLF) ++ "abc" ++ "" /\
    fst (read 2 (body post_parsed))
    = Str.take 2 (Str.drop (String.length (request_line ++ CRLF ++ lines_text lines ++ CRLF))
                           (pending [post_request])).
Proof.
  exact (body_follows_headers [post_request] post_parsed 2 eq_refl ltac:(lia)).
Defined.

(** ** The interim response *)

Section InterimResponse.

Variable open_ : string -> result string.
Variable guess_type : string -> option string * option string.

(** X20: for a parsed request the interim "100 Continue" is sent exactly
    when the value of the Expect header holds "100-continue"; it is then
    the first thing the handler does, before the body is read and before
    the answer, and it is sent once. *)
Theorem continue_comes_first (client_sock : socket) (request : Request) :
  from_socket client_sock = inr request ->
  if Str.contains "100-continue" (Headers.get "expect" "" (headers request))
  then exists rest,
      fst (handle_client open_ guess_type client_sock) = Send continue :: rest /\
      ~ In (Send continue) rest
  else ~ In (Send continue) (fst (handle_client open_ guess_type client_sock)).
Proof.
  intros Hparse. rewrite (handle_client_parsed _ _ _ _ Hparse).
  pose proof (handle_request_parts open_ guess_type request) as Hparts.
  cbv zeta in Hparts. rewrite Hparts. clear Hparts.
  fold (answer open_ guess_type request).
  set (reads := if (spec_body_length request =? 0)%Z then []
                else [BodyRead (spec_body_length request)
                               (fst (read (spec_body_length request) (body request)))]).
  assert (Hreads : ~ In (Send continue) reads).
  { subst reads. destruct (_ =? _)%Z; simpl; intuition discriminate. }
  assert (Hrest : forall t r,
             answer open_ guess_type request = (t, r) ->
             ~ In (Send continue)
                  (fst (with_socket (try_except ((reads ++ t)%list, r) is_Exception
                                                (send bad_request))))).
  { intros t r Ht.
    destruct (answer_cases open_ guess_type request)
      as [(e & t' & Ht' & _ & _ & _ & _ & ->)|(t' & Ht' & _ & _ & _ & _ & Hc)];
      rewrite Ht in Ht'; injection Ht' as -> ->; simpl;
      rewrite !in_app_iff; simpl; intuition discriminate. }
  destruct (answer open_ guess_type request) as [t r] eqn:Ht.
  specialize (Hrest t r eq_refl).
  destruct (Str.contains "100-continue" (Headers.get "expect" "" (headers request))).
  - destruct r as [e|[]]; simpl in *; eexists; (split; [reflexivity|]); exact Hrest.
  - exact Hrest.
Qed.

End InterimResponse.

(** A request with the header "Expect: 100-continue". *)
Lemma continue_comes_first_witness :
  exists rest,
    fst (handle_client no_files no_types
           ["PUT /f HTTP/1.1" ++ CRLF ++ "Expect: 100-continue" ++ CRLF ++ CRLF])
    = Send continue :: rest /\
    ~ In (Send continue) rest.
Proof.
  exact (continue_comes_first no_files no_types
           ["PUT /f HTTP/1.1" ++ CRLF ++ "Expect: 100-continue" ++ CRLF ++ CRLF]
           {| method := "PUT"; path := "/f"; headers := [("expect", "100-continue")];
              body := {| _sock := []; _buff := "" |} |}
           eq_refl).
Defined.
